(** * Valve configurator: the rule engine of the form's submit handlers

    The repository holds several revisions of one browser script.  Each
    revision registers a [submit] handler on the configurator form that reads
    the form's fields and accumulates, in a mutable [Set] called
    [recommendations] and a mutable flag [suitable], the valve families and
    the warnings it then renders.  This file embeds

    - the handler of [script.js] (module [Script]),
    - the synchronous handler kept in the 2025-07-28 snapshot of
      [static/script.js] (module [Snapshot]),
    - the asynchronous handler of the same snapshot, with its
      pressure/temperature checks and its call to the backend
      (module [Advisor]),

    and proves properties of them.

    Numbers.  [temperature] and [pressure] are read with [parseFloat] from
    [<input type="number" required>] fields, and the handlers return before
    the rules when [form.checkValidity()] fails; the rules therefore see
    finite numbers, which are modelled by the rationals they denote (every
    binary64 value is a rational, and [<], [<=], [>], [>=] on finite doubles
    are the comparisons of these rationals).  The one number the rules parse
    themselves, the nominal diameter, may be [NaN]: it has the type
    [JS.number]. *)

From Stdlib Require Import Bool List String Ascii ZArith QArith Qround Lia Lqa.
Import ListNotations.

Local Open Scope string_scope.
Local Open Scope Q_scope.

(** ** JavaScript values used by the handlers *)

Module JS.

(** Numbers: a rational, an infinity, or NaN.  The sign of zero is not
    observable through the comparisons the scripts use. *)
Inductive number : Type :=
| NaN
| Infinity (negative : bool)
| Finite (q : Q).

(** [a > b] and [a <= b] on rationals, as booleans. *)
Definition Qgtb (a b : Q) : bool := negb (Qle_bool a b).
Definition Qltb (a b : Q) : bool := negb (Qle_bool b a).
Definition Qleb (a b : Q) : bool := Qle_bool a b.
Definition Qgeb (a b : Q) : bool := Qle_bool b a.

(** [x > y]: false as soon as an operand is NaN. *)
Definition gt (x y : number) : bool :=
  match x, y with
  | NaN, _ | _, NaN => false
  | Infinity true, _ => false
  | Infinity false, Infinity false => false
  | Infinity false, _ => true
  | Finite _, Infinity n => n
  | Finite a, Finite b => Qgtb a b
  end.

(** *** Strings, as sequences of code units *)

(** [s.includes(search)]: [search] occurs in [s] as a contiguous block. *)
Fixpoint includes (s search : string) : bool :=
  match s with
  | EmptyString => prefix search EmptyString
  | String _ s' => prefix search s || includes s' search
  end.

Definition is_digit (c : ascii) : bool :=
  (48 <=? nat_of_ascii c)%nat && (nat_of_ascii c <=? 57)%nat.

Definition digit_value (c : ascii) : Z := Z.of_nat (nat_of_ascii c) - 48.

(** [s.replace(/[^\d.]/g, '')]: every code unit that is neither a decimal
    digit nor a dot is deleted. *)
Fixpoint replace_non_digit_dot (s : string) : string :=
  match s with
  | EmptyString => EmptyString
  | String c s' =>
      if is_digit c || Ascii.eqb c "."
      then String c (replace_non_digit_dot s')
      else replace_non_digit_dot s'
  end.

(** *** [parseFloat] *)

(** White space and line terminators among the 7-bit code units. *)
Definition is_white (c : ascii) : bool :=
  let n := nat_of_ascii c in
  ((9 <=? n)%nat && (n <=? 13)%nat) || (n =? 32)%nat.

Fixpoint trim_start (s : string) : string :=
  match s with
  | String c s' => if is_white c then trim_start s' else s
  | EmptyString => EmptyString
  end.

(** The longest run of decimal digits at the head of [s], and what follows. *)
Fixpoint span_digits (s : string) : list ascii * string :=
  match s with
  | String c s' =>
      if is_digit c
      then let (ds, r) := span_digits s' in (c :: ds, r)
      else ([], s)
  | EmptyString => ([], EmptyString)
  end.

(** The value of a run of digits read in base ten, most significant first. *)
Definition digits_value (ds : list ascii) : Z :=
  fold_left (fun acc c => 10 * acc + digit_value c)%Z ds 0%Z.

(** [10^e] for an exponent of either sign. *)
Definition pow10 (e : Z) : Q :=
  if (0 <=? e)%Z then inject_Z (10 ^ e) else / inject_Z (10 ^ (- e)).

(** The exponent part at the head of [s] ([e] or [E], an optional sign, at
    least one digit); [0] when there is none. *)
Definition exponent_part (s : string) : Z :=
  match s with
  | String c r =>
      if Ascii.eqb c "e" || Ascii.eqb c "E" then
        let '(neg, r') :=
          match r with
          | String "-" t => (true, t)
          | String "+" t => (false, t)
          | _ => (false, r)
          end in
        match fst (span_digits r') with
        | [] => 0%Z
        | ds => if neg then (- digits_value ds)%Z else digits_value ds
        end
      else 0%Z
  | EmptyString => 0%Z
  end.

(** What a [StrDecimalLiteral] denotes. *)
Inductive literal : Type :=
| LitInfinity (negative : bool)
| LitDecimal (mv : Q).

Definition negate (l : literal) : literal :=
  match l with
  | LitInfinity n => LitInfinity (negb n)
  | LitDecimal v => LitDecimal (- v)
  end.

(** The value of the longest prefix of [u] made of digits with an optional
    fraction, or of a dot and digits, and then of an optional exponent;
    [None] when [u] starts with no such prefix. *)
Definition decimal (u : string) : option Q :=
  let (ip, r1) := span_digits u in
  let (fp, r2) :=
    match r1 with
    | String "." r => span_digits r
    | _ => ([], r1)
    end in
  match ip, fp with
  | [], [] => None
  | _, _ =>
      Some (inject_Z (digits_value (ip ++ fp))
            * pow10 (- Z.of_nat (List.length fp))
            * pow10 (exponent_part r2))
  end.

(** The [StrUnsignedDecimalLiteral] at the head of [u]. *)
Definition str_unsigned_decimal_literal (u : string) : option literal :=
  if prefix "Infinity" u then Some (LitInfinity false)
  else option_map LitDecimal (decimal u).

(** The [StrDecimalLiteral] at the head of [s]: an unsigned literal, maybe
    after a sign. *)
Definition str_decimal_literal (s : string) : option literal :=
  match s with
  | String "-" r => option_map negate (str_unsigned_decimal_literal r)
  | String "+" r => str_unsigned_decimal_literal r
  | _ => str_unsigned_decimal_literal s
  end.

(** *** Rounding to binary64 *)

Definition pow2 (e : Z) : Q :=
  if (0 <=? e)%Z then inject_Z (2 ^ e) else / inject_Z (2 ^ (- e)).

(** Nearest integer, ties to even. *)
Definition round_half_even (x : Q) : Z :=
  let f := Qfloor x in
  match Qcompare (x - inject_Z f) (1 # 2) with
  | Lt => f
  | Gt => (f + 1)%Z
  | Eq => if Z.even f then f else (f + 1)%Z
  end.

(** For [x > 0], the [k] with [2^k <= x < 2^(k+1)]. *)
Definition floor_log2 (x : Q) : Z :=
  let k := (Z.log2 (Qnum x) - Z.log2 (Zpos (Qden x)))%Z in
  if Qltb x (pow2 k) then (k - 1)%Z else k.

(** Round-to-nearest-even of a positive rational on 53 significant bits,
    with gradual underflow below [2^-1022] and overflow to infinity. *)
Definition round_binary64_pos (x : Q) : number :=
  let e := Z.max (floor_log2 x - 52) (-1074) in
  let y := inject_Z (round_half_even (x / pow2 e)) * pow2 e in
  if Qleb (pow2 1024) y then Infinity false else Finite y.

Definition round_binary64 (x : Q) : number :=
  match Qcompare x 0 with
  | Eq => Finite 0
  | Gt => round_binary64_pos x
  | Lt =>
      match round_binary64_pos (- x) with
      | Finite y => Finite (- y)
      | Infinity _ => Infinity true
      | NaN => NaN
      end
  end.

(** [parseFloat(s)]: leading white space is skipped, the longest prefix that
    is a decimal literal is read and rounded; NaN when there is none. *)
Definition parseFloat (s : string) : number :=
  match str_decimal_literal (trim_start s) with
  | None => NaN
  | Some (LitInfinity n) => Infinity n
  | Some (LitDecimal v) => round_binary64 v
  end.

(** *** [Set]: insertion-ordered, without duplicates *)

Definition has (s : list string) (x : string) : bool :=
  existsb (String.eqb x) s.

Definition add (x : string) (s : list string) : list string :=
  if has s x then s else (s ++ [x])%list.

End JS.

(** ** What the handlers read and what they build *)

(** The local constants a handler takes from the form once
    [checkValidity] has passed.  [nominalDiameter] and [fluidType] are the
    field values after [toLowerCase()]. *)
Record form : Type := {
  mainFunction : string;
  bodyBonnetMaterial : string;
  temperature : Q;
  pressure : Q;
  sealSurfaceMaterial : string;
  nominalDiameter : string;
  fluidType : string
}.

(** The two accumulators every handler declares with
    [let recommendations = new Set(); let suitable = true;]. *)
Record state : Type := {
  recommendations : list string;
  suitable : bool
}.

Definition initial : state := {| recommendations := []; suitable := true |}.

(** [recommendations.add(x)] *)
Definition recommend (x : string) (st : state) : state :=
  {| recommendations := JS.add x (recommendations st); suitable := suitable st |}.

(** [suitable = false] *)
Definition unsuitable (st : state) : state :=
  {| recommendations := recommendations st; suitable := false |}.

(** What the handler leaves on the page: the items of [#valveList], and
    whether [#noResultsMessage] is visible. *)
Record page : Type := {
  valveList : list string;
  noResultsMessage : bool
}.

(** A double quote, for the messages that contain one. *)
Definition dquote : string := String (ascii_of_nat 34) EmptyString.

(** ** Messages *)

Definition cast_iron_steam_warning : string :=
  "Warning: Cast Iron has limited use for steam above 10 bar / 180°C. Consider other materials for steam applications.".
Definition brass_size_warning : string :=
  "Warning: Brass is generally limited to DN100. Consider other materials for larger diameters.".
Definition brass_chemical_warning : string :=
  "Warning: Brass is not suitable for corrosive fluids, acids, or ammonia.".
Definition bronze_chemical_warning : string :=
  "Warning: Bronze is not suitable for corrosive fluids, acids, or ammonia.".
Definition duplex_sea_water_note : string :=
  "Duplex/Super Duplex is highly recommended for sea water applications.".
Definition no_material_match : string :=
  "No valves found matching the selected body/bonnet material and operating conditions. Please review your material, temperature, and pressure selections.".
Definition elastomer_warning : string :=
  "Warning: Elastomer seals have low resistance to erosion and corrosion, and are sensitive to abrasion.".
Definition ptfe_warning : string :=
  "Warning: PTFE is prohibited in nuclear power plants.".
Definition stellite_note : string :=
  "Stellite is recommended for severe conditions and abrasive fluids.".
Definition no_seal_match : string :=
  "No valves found matching the selected seal surface material and operating conditions.".
Definition knife_gate_v_deflector : string :=
  "Knife Gate Valves with " ++ dquote ++ "V" ++ dquote
  ++ " Deflector (Robinets vanne à guillotine avec " ++ dquote ++ "V" ++ dquote
  ++ " de régulation)".

(** ** Branches of [switch (bodyBonnetMaterial)] that all revisions share

    Each takes the current value of the local [materialViable] and the
    state, and returns them as the branch leaves them. *)

Section MaterialBranches.

Variable f : form.

Definition case_cast_iron (materialViable : bool) (st : state) : bool * state :=
  if JS.includes (fluidType f) "steam" && (JS.Qgtb (temperature f) 180 || JS.Qgtb (pressure f) 10)
  then (false, recommend cast_iron_steam_warning st)
  else if JS.Qleb (temperature f) 184 && JS.Qleb (pressure f) 16 then (true, st)
  else (materialViable, st).

Definition case_ductile_iron (materialViable : bool) (st : state) : bool * state :=
  if JS.Qleb (temperature f) 350 && JS.Qleb (pressure f) 25 then (true, st) else (materialViable, st).

Definition case_carbon_steel (materialViable : bool) (st : state) : bool * state :=
  if JS.Qgeb (temperature f) (-20) && JS.Qleb (temperature f) 425 && JS.Qleb (pressure f) 400
  then (true, st) else (materialViable, st).

Definition case_stainless_steel (materialViable : bool) (st : state) : bool * state :=
  if JS.Qgeb (temperature f) (-200) && JS.Qleb (temperature f) 420 && JS.Qleb (pressure f) 400
  then (true, st) else (materialViable, st).

(** The condition of the first [if] of [case 'brass']. *)
Definition over_dn100 : bool :=
  JS.includes (nominalDiameter f) "dn100"
  || (negb (String.eqb (nominalDiameter f) "")
      && JS.gt (JS.parseFloat (JS.replace_non_digit_dot (nominalDiameter f)))
               (JS.Finite 100)).

Definition chemically_aggressive : bool :=
  JS.includes (fluidType f) "corrosive"
  || JS.includes (fluidType f) "acid"
  || JS.includes (fluidType f) "ammonia".

Definition case_brass (materialViable : bool) (st : state) : bool * state :=
  let '(materialViable, st) :=
    if over_dn100 then (false, recommend brass_size_warning st)
    else (materialViable, st) in
  let '(materialViable, st) :=
    if chemically_aggressive then (false, recommend brass_chemical_warning st)
    else (materialViable, st) in
  if JS.Qleb (temperature f) 100 && JS.Qleb (pressure f) 64 then (true, st) else (materialViable, st).

Definition case_bronze (materialViable : bool) (st : state) : bool * state :=
  let '(materialViable, st) :=
    if chemically_aggressive then (false, recommend bronze_chemical_warning st)
    else (materialViable, st) in
  if JS.Qleb (temperature f) 100 && JS.Qleb (pressure f) 64 then (true, st) else (materialViable, st).

Definition case_duplex_super_duplex (materialViable : bool) (st : state) : bool * state :=
  if JS.includes (fluidType f) "sea water"
  then (true, recommend duplex_sea_water_note st)
  else (true, st).

Definition case_plastic (materialViable : bool) (st : state) : bool * state :=
  if JS.Qleb (temperature f) 60 && JS.Qleb (pressure f) 16 then (true, st) else (materialViable, st).

(** ** [switch (sealSurfaceMaterial)], the same in all revisions

    Entered with [let sealViable = false]; there is no [default]. *)
Definition seal_switch (st : state) : bool * state :=
  let sealViable := false in
  let s := sealSurfaceMaterial f in
  if String.eqb s "elastomer" then
    let sealViable :=
      if JS.Qleb (temperature f) 120 && negb (JS.includes (fluidType f) "abrasive")
         && negb (JS.includes (fluidType f) "corrosive")
      then true else sealViable in
    if JS.includes (fluidType f) "abrasive" || JS.includes (fluidType f) "corrosive"
    then (sealViable, recommend elastomer_warning st)
    else (sealViable, st)
  else if String.eqb s "ptfe" then
    let sealViable :=
      if JS.Qleb (temperature f) 200 && negb (JS.includes (fluidType f) "nuclear")
      then true else sealViable in
    if JS.includes (fluidType f) "nuclear"
    then (sealViable, recommend ptfe_warning st)
    else (sealViable, st)
  else if String.eqb s "rubber_seal" then
    (if JS.Qleb (temperature f) 130 then true else sealViable, st)
  else if String.eqb s "copper_alloys" then
    (if JS.Qleb (temperature f) 200 && JS.Qleb (pressure f) 16 then true else sealViable, st)
  else if String.eqb s "stainless_steel_seal" then
    (if JS.Qgeb (temperature f) 420 then true else sealViable, st)
  else if String.eqb s "stellite" then
    (true, recommend stellite_note st)
  else (sealViable, st).

(** [if (sealSurfaceMaterial) { ... if (!sealViable) { ... } }]: an empty
    string is falsy, so the block is skipped when no seal was chosen. *)
Definition seal_step (st : state) : state :=
  if String.eqb (sealSurfaceMaterial f) "" then st
  else
    let '(sealViable, st) := seal_switch st in
    if negb sealViable then recommend no_seal_match (unsuitable st) else st.

End MaterialBranches.

(** A primary function was chosen: [mainFunction] is one of the three values
    the chain of the handlers tests for. *)
Definition function_selected (f : form) : bool :=
  String.eqb (mainFunction f) "on_off"
  || String.eqb (mainFunction f) "regulation"
  || String.eqb (mainFunction f) "on_off_regulation".

(** [recommendations.add] called on each element in turn. *)
Definition recommend_all (xs : list string) (st : state) : state :=
  fold_left (fun st x => recommend x st) xs st.

(** ** The handler of [script.js] *)

Module Script.

Definition on_off_families : list string :=
  [ "Gate Valves (Vannes passage direct)";
    "Butterfly Valves (Vannes à papillon)";
    "Ball Valves (Robinets boisseau sphérique)";
    "Knife Gate Valves (Robinets vanne à guillotine)" ].

Definition regulation_families : list string :=
  [ "Globe Valves (Robinets à soupape)";
    "Weir Type Diaphragm Valves (Robinet à membrane)";
    "Needle Valves (Robinet à pointeau)" ].

Definition on_off_regulation_families : list string :=
  [ "Weir Type Diaphragm Valves (Robinet à membrane)";
    "Butterfly Valves (Robinet vanne à papillon)";
    "Globe Valves (Robinet à soupape)";
    knife_gate_v_deflector ].

(** The [if / else if] chain on [mainFunction]. *)
Definition function_step (f : form) (st : state) : state :=
  if String.eqb (mainFunction f) "on_off" then recommend_all on_off_families st
  else if String.eqb (mainFunction f) "regulation" then recommend_all regulation_families st
  else if String.eqb (mainFunction f) "on_off_regulation"
       then recommend_all on_off_regulation_families st
  else unsuitable st.

Definition case_stainless_steel_310 (f : form) (materialViable : bool) (st : state)
  : bool * state :=
  if JS.Qgeb (temperature f) (-200) && JS.Qleb (temperature f) 550
     && JS.Qleb (pressure f) 400
  then (true, st) else (materialViable, st).

(** [let materialViable = false; switch (bodyBonnetMaterial) { ... }]: the
    value of [materialViable] and the state after the switch. *)
Definition material_switch (f : form) (st : state) : bool * state :=
  let materialViable := false in
  let m := bodyBonnetMaterial f in
  if String.eqb m "cast_iron" then case_cast_iron f materialViable st
  else if String.eqb m "ductile_iron" then case_ductile_iron f materialViable st
  else if String.eqb m "carbon_steel" then case_carbon_steel f materialViable st
  else if String.eqb m "stainless_steel" then case_stainless_steel f materialViable st
  else if String.eqb m "stainless_steel_310" then case_stainless_steel_310 f materialViable st
  else if String.eqb m "brass" then case_brass f materialViable st
  else if String.eqb m "bronze" then case_bronze f materialViable st
  else if String.eqb m "duplex_super_duplex" then case_duplex_super_duplex f materialViable st
  else if String.eqb m "plastic" then case_plastic f materialViable st
  else (true, st).

(** The switch, then [if (!materialViable) { suitable = false; ... }]. *)
Definition material_step (f : form) (st : state) : state :=
  let '(materialViable, st) := material_switch f st in
  if negb materialViable then recommend no_material_match (unsuitable st) else st.

(** The rules, from the fresh accumulators to the state that is displayed. *)
Definition evaluate (f : form) : state :=
  seal_step f (material_step f (function_step f initial)).

(** The [// Display results] block. *)
Definition display (st : state) : page :=
  let r := recommendations st in
  if (0 <? List.length r)%nat && suitable st
  then {| valveList := r; noResultsMessage := false |}
  else if (List.length r =? 1)%nat
          && (JS.has r no_material_match || JS.has r no_seal_match)
  then {| valveList := firstn 1 r; noResultsMessage := false |}
  else {| valveList := []; noResultsMessage := true |}.

Definition submit (f : form) : page := display (evaluate f).

(** The value of [materialViable] when the switch is left, and of
    [sealViable] when the seal switch is left, in a run of the handler. *)
Definition materialViable (f : form) : bool :=
  fst (material_switch f (function_step f initial)).
Definition sealViable (f : form) : bool :=
  fst (seal_switch f (material_step f (function_step f initial))).

(** The families the chain on [mainFunction] adds, by function. *)
Definition families (fn : string) : list string :=
  if String.eqb fn "on_off" then on_off_families
  else if String.eqb fn "regulation" then regulation_families
  else if String.eqb fn "on_off_regulation" then on_off_regulation_families
  else [].

End Script.

(** ** The synchronous handler of the 2025-07-28 snapshot *)

Module Snapshot.

Definition on_off_families : list string :=
  [ "Gate Valves (Vannes passage direct)";
    "Butterfly Valves (Vannes à papillon)";
    "Ball Valves (Robinets boisseau sphérique)";
    "Knife Gate Valves (Robinets vanne à guillotine)" ].

Definition regulation_families : list string :=
  [ "Globe Valves (Robinets à soupape)";
    "Weir Type Diaphragm Valves (Robinet à membrane)";
    "Needle Valves (Robinets à pointeau)" ].

Definition on_off_regulation_families : list string :=
  [ "Weir Type Diaphragm Valves (Robinet à membrane)";
    "Butterfly Valves (Robinet vanne à papillon)";
    "Globe Valves (Robinets à soupape)";
    knife_gate_v_deflector ].

Definition select_function_prompt : string :=
  "Please select a primary function for the valve.".
Definition select_material_prompt : string :=
  "Please select a body and bonnet material.".

Definition function_step (f : form) (st : state) : state :=
  if String.eqb (mainFunction f) "on_off" then recommend_all on_off_families st
  else if String.eqb (mainFunction f) "regulation" then recommend_all regulation_families st
  else if String.eqb (mainFunction f) "on_off_regulation"
       then recommend_all on_off_regulation_families st
  else recommend select_function_prompt (unsuitable st).

(** Here [case 'stainless_steel':] and [case 'stainless_steel_310':] label
    the same statement, and [default] reports the missing material itself,
    leaving [materialViable] as it was. *)
Definition material_switch (f : form) (st : state) : bool * state :=
  let materialViable := false in
  let m := bodyBonnetMaterial f in
  if String.eqb m "cast_iron" then case_cast_iron f materialViable st
  else if String.eqb m "ductile_iron" then case_ductile_iron f materialViable st
  else if String.eqb m "carbon_steel" then case_carbon_steel f materialViable st
  else if String.eqb m "stainless_steel" || String.eqb m "stainless_steel_310"
       then case_stainless_steel f materialViable st
  else if String.eqb m "brass" then case_brass f materialViable st
  else if String.eqb m "bronze" then case_bronze f materialViable st
  else if String.eqb m "duplex_super_duplex" then case_duplex_super_duplex f materialViable st
  else if String.eqb m "plastic" then case_plastic f materialViable st
  else (materialViable, recommend select_material_prompt (unsuitable st)).

(** The switch, then
    [if (!materialViable && bodyBonnetMaterial !== '') { ... }]. *)
Definition material_step (f : form) (st : state) : state :=
  let '(materialViable, st) := material_switch f st in
  if negb materialViable && negb (String.eqb (bodyBonnetMaterial f) "")
  then recommend no_material_match (unsuitable st) else st.

Definition evaluate (f : form) : state :=
  seal_step f (material_step f (function_step f initial)).

Definition display (st : state) : page :=
  if suitable st && (0 <? List.length (recommendations st))%nat
  then {| valveList := recommendations st; noResultsMessage := false |}
  else {| valveList := []; noResultsMessage := true |}.

Definition submit (f : form) : page := display (evaluate f).

Definition materialViable (f : form) : bool :=
  fst (material_switch f (function_step f initial)).
Definition sealViable (f : form) : bool :=
  fst (seal_switch f (material_step f (function_step f initial))).

Definition families (fn : string) : list string :=
  if String.eqb fn "on_off" then on_off_families
  else if String.eqb fn "regulation" then regulation_families
  else if String.eqb fn "on_off_regulation" then on_off_regulation_families
  else [].

End Snapshot.

(** ** The asynchronous handler of the 2025-07-28 snapshot *)

Module Advisor.

Definition HIGH_TEMP_THRESHOLD : Q := 100.
Definition LOW_PRESSURE_THRESHOLD : Q := 1.
Definition VERY_LOW_TEMP_THRESHOLD : Q := 0.
Definition HIGH_PRESSURE_THRESHOLD : Q := 50.
Definition EXTREME_HIGH_TEMP_THRESHOLD : Q := 400.
Definition EXTREME_HIGH_PRESSURE_THRESHOLD : Q := 200.
Definition EXTREME_LOW_TEMP_THRESHOLD : Q := -50.
(** The binary64 value of the literal [0.1]. *)
Definition VACUUM_PRESSURE_THRESHOLD : Q := 3602879701896397 # 36028797018963968.

Definition warning_1 : string :=
  "Warning: High temperature with very low pressure may indicate flashing fluids or vacuum service. Specialized valves (e.g., globe valves for flashing, or specific materials/designs for vacuum) may be required. Consult a specialist.".
Definition warning_2 : string :=
  "Warning: Very low temperature combined with high pressure might require cryogenic or high-pressure gas service valves. Ensure material selection (e.g., stainless steel, special alloys) is appropriate for these extreme conditions.".
Definition warning_3 : string :=
  "Warning: Extremely high pressure and high temperature conditions indicate a super-critical fluid or very specialized application. Valve design and material selection are critical and require expert consultation.".
Definition warning_4 : string :=
  "Warning: Very low pressure combined with very low temperature suggests cryogenic vacuum service. This requires highly specialized valve designs and materials to prevent leakage and material embrittlement.".
Definition warning_5 : string :=
  "Warning: Very high pressure at low temperatures (below 0°C) indicates high-pressure cryogenic gas service. This requires robust materials and specialized sealing to prevent embrittlement and leakage.".
Definition warning_6 : string :=
  "Warning: Very low pressure at extremely high temperatures (above 400°C) suggests high-temperature vacuum or highly expanded gas. This requires specialized valve designs for sealing and material resistance to creep/oxidation.".

(** The chain of pressure/temperature checks (Warnings 1 to 6). *)
Definition envelope (temperature pressure : Q) (st : state) : state :=
  if JS.Qgtb temperature HIGH_TEMP_THRESHOLD && JS.Qltb pressure LOW_PRESSURE_THRESHOLD
  then unsuitable (recommend warning_1 st)
  else if JS.Qltb temperature VERY_LOW_TEMP_THRESHOLD
          && JS.Qgtb pressure HIGH_PRESSURE_THRESHOLD
  then unsuitable (recommend warning_2 st)
  else if JS.Qgtb pressure EXTREME_HIGH_PRESSURE_THRESHOLD
          && JS.Qgtb temperature EXTREME_HIGH_TEMP_THRESHOLD
  then unsuitable (recommend warning_3 st)
  else if JS.Qltb pressure VACUUM_PRESSURE_THRESHOLD
          && JS.Qltb temperature EXTREME_LOW_TEMP_THRESHOLD
  then unsuitable (recommend warning_4 st)
  else if JS.Qgtb pressure EXTREME_HIGH_PRESSURE_THRESHOLD
          && JS.Qltb temperature VERY_LOW_TEMP_THRESHOLD
  then unsuitable (recommend warning_5 st)
  else if JS.Qltb pressure LOW_PRESSURE_THRESHOLD
          && JS.Qgtb temperature EXTREME_HIGH_TEMP_THRESHOLD
  then unsuitable (recommend warning_6 st)
  else st.

(** How the [try] block around the request to [/recommend] ends: with an
    exception (the request failed, the status was not ok, the body was not
    the expected JSON), or with the parsed [data], of which the handler
    reads [data.recommendations] (taken as empty when it is missing) and
    whether [data.suitable] is exactly [false]. *)
Inductive exchange : Type :=
| Thrown
| Data (data_recommendations : list string) (data_suitable_is_false : bool).

Definition no_ai_recommendation : string :=
  "No specific recommendations from AI. Please adjust your selections.".
Definition backend_error : string :=
  "Error contacting the recommendation service. Please ensure the Python backend is running and reachable.".

(** The [try { ... } catch (error) { ... }] statement. *)
Definition backend_step (x : exchange) (st : state) : state :=
  match x with
  | Data (r :: rs) no =>
      {| recommendations := recommendations (recommend_all (r :: rs) st);
         suitable := negb no |}
  | Data [] _ => recommend no_ai_recommendation (unsuitable st)
  | Thrown => recommend backend_error (unsuitable st)
  end.

Definition evaluate (temperature pressure : Q) (x : exchange) : state :=
  backend_step x (envelope temperature pressure initial).

Definition display (st : state) : page :=
  if suitable st && (0 <? List.length (recommendations st))%nat
  then {| valveList := recommendations st; noResultsMessage := false |}
  else {| valveList := []; noResultsMessage := true |}.

Definition submit (temperature pressure : Q) (x : exchange) : page :=
  display (evaluate temperature pressure x).

(** The six checks as a table, in their order in the chain: the condition
    of each on (temperature, pressure), and its warning.  [first_match]
    reads the table as the description of the detector does: the first
    check whose condition holds gives the warning, and the later ones are
    not looked at. *)
Definition checks : list ((Q -> Q -> bool) * string) :=
  [ (fun t p => JS.Qgtb t HIGH_TEMP_THRESHOLD && JS.Qltb p LOW_PRESSURE_THRESHOLD,
     warning_1);
    (fun t p => JS.Qltb t VERY_LOW_TEMP_THRESHOLD && JS.Qgtb p HIGH_PRESSURE_THRESHOLD,
     warning_2);
    (fun t p => JS.Qgtb p EXTREME_HIGH_PRESSURE_THRESHOLD
                && JS.Qgtb t EXTREME_HIGH_TEMP_THRESHOLD,
     warning_3);
    (fun t p => JS.Qltb p VACUUM_PRESSURE_THRESHOLD
                && JS.Qltb t EXTREME_LOW_TEMP_THRESHOLD,
     warning_4);
    (fun t p => JS.Qgtb p EXTREME_HIGH_PRESSURE_THRESHOLD
                && JS.Qltb t VERY_LOW_TEMP_THRESHOLD,
     warning_5);
    (fun t p => JS.Qltb p LOW_PRESSURE_THRESHOLD
                && JS.Qgtb t EXTREME_HIGH_TEMP_THRESHOLD,
     warning_6) ].

Definition first_match (temperature pressure : Q) : option string :=
  option_map snd (find (fun c => fst c temperature pressure) checks).

End Advisor.

(** ** Notions used in the statements *)

(** [st'] holds the recommendations of [st], in the same order, and maybe
    more after them. *)
Definition extends (st st' : state) : Prop :=
  exists t, recommendations st' = (recommendations st ++ t)%list.

(** A branch of a switch is quiet when it leaves [suitable] alone and only
    appends to the recommendations. *)
Definition quiet (st : state) (r : bool * state) : Prop :=
  suitable (snd r) = suitable st /\ extends st (snd r).

(** The token holds a decimal digit. *)
Fixpoint has_digit (s : string) : bool :=
  match s with
  | EmptyString => false
  | String c s' => JS.is_digit c || has_digit s'
  end.

Fixpoint all_dots (s : string) : bool :=
  match s with
  | EmptyString => true
  | String c s' => Ascii.eqb c "." && all_dots s'
  end.

(** ** Inputs used in the examples *)

(** Cast iron at a given temperature and pressure, in a given fluid. *)
Definition cast_iron_at (t p : Q) (fluid : string) : form :=
  {| mainFunction := "on_off"; bodyBonnetMaterial := "cast_iron";
     temperature := t; pressure := p; sealSurfaceMaterial := "";
     nominalDiameter := ""; fluidType := fluid |}.

(** Brass or bronze at 50 degrees and 20 bar in a corrosive fluid. *)
Definition copper_alloy_in_corrosive_fluid (material : string) : form :=
  {| mainFunction := "on_off"; bodyBonnetMaterial := material;
     temperature := 50; pressure := 20; sealSurfaceMaterial := "";
     nominalDiameter := ""; fluidType := "corrosive fluid" |}.

(** Stainless steel 310 at 500 degrees and 100 bar. *)
Definition stainless_steel_310_at_500 : form :=
  {| mainFunction := "on_off"; bodyBonnetMaterial := "stainless_steel_310";
     temperature := 500; pressure := 100; sealSurfaceMaterial := "";
     nominalDiameter := ""; fluidType := "" |}.

(** An on/off valve with no body material chosen. *)
Definition no_material : form :=
  {| mainFunction := "on_off"; bodyBonnetMaterial := "";
     temperature := 20; pressure := 5; sealSurfaceMaterial := "";
     nominalDiameter := ""; fluidType := "" |}.

(** A regulation valve in brass, DN150, at 150 degrees and 20 bar. *)
Definition brass_dn150_at_150 : form :=
  {| mainFunction := "regulation"; bodyBonnetMaterial := "brass";
     temperature := 150; pressure := 20; sealSurfaceMaterial := "";
     nominalDiameter := "dn150"; fluidType := "" |}.

(** Duplex / super duplex in a given fluid. *)
Definition duplex_in (fluid : string) : form :=
  {| mainFunction := "on_off"; bodyBonnetMaterial := "duplex_super_duplex";
     temperature := 20; pressure := 5; sealSurfaceMaterial := "";
     nominalDiameter := ""; fluidType := fluid |}.

(** Brass with a given diameter token. *)
Definition brass_of_diameter (d : string) : form :=
  {| mainFunction := "on_off"; bodyBonnetMaterial := "brass";
     temperature := 20; pressure := 5; sealSurfaceMaterial := "";
     nominalDiameter := d; fluidType := "" |}.
(** ** The colour of the 3D model *)

(** [getMaterialColor(materialType)], the same in all revisions: the colour
    of the body of the model, as a 24-bit RGB number. *)
Definition getMaterialColor (materialType : string) : N :=
  if String.eqb materialType "cast_iron" then 0x808080%N
  else if String.eqb materialType "ductile_iron" then 0x696969%N
  else if String.eqb materialType "carbon_steel" then 0x404040%N
  else if String.eqb materialType "stainless_steel"
          || String.eqb materialType "stainless_steel_310" then 0xc0c0c0%N
  else if String.eqb materialType "brass" then 0xb5a642%N
  else if String.eqb materialType "bronze" then 0xcd7f32%N
  else if String.eqb materialType "plastic" then 0x90ee90%N
  else if String.eqb materialType "duplex_super_duplex" then 0x87ceeb%N
  else 0xaaaaaa%N.

(** ** More notions used in the statements *)

(** The values of the material and seal fields that the switches name. *)
Definition material_catalog : list string :=
  ["cast_iron"; "ductile_iron"; "carbon_steel"; "stainless_steel";
   "stainless_steel_310"; "brass"; "bronze"; "duplex_super_duplex"; "plastic"].

Definition seal_catalog : list string :=
  ["elastomer"; "ptfe"; "rubber_seal"; "copper_alloys"; "stainless_steel_seal";
   "stellite"].

(** What the material switches, and the seal switch, may recommend. *)
Definition material_messages : list string :=
  [cast_iron_steam_warning; brass_size_warning; brass_chemical_warning;
   bronze_chemical_warning; duplex_sea_water_note].

Definition seal_messages : list string :=
  [elastomer_warning; ptfe_warning; stellite_note].

(** Every string the handler of [script.js] has a call to
    [recommendations.add] for. *)
Definition script_vocabulary : list string :=
  (Script.on_off_families ++ Script.regulation_families
   ++ Script.on_off_regulation_families ++ material_messages
   ++ [no_material_match] ++ seal_messages ++ [no_seal_match])%list.

(** The same for the synchronous handler of the snapshot. *)
Definition snapshot_vocabulary : list string :=
  (Snapshot.on_off_families ++ Snapshot.regulation_families
   ++ Snapshot.on_off_regulation_families
   ++ [Snapshot.select_function_prompt; Snapshot.select_material_prompt]
   ++ material_messages ++ [no_material_match] ++ seal_messages
   ++ [no_seal_match])%list.

(** The messages with which the handlers explain a rejection. *)
Definition rejection_messages : list string :=
  [Snapshot.select_function_prompt; Snapshot.select_material_prompt;
   no_material_match; no_seal_match].

(** [st'] keeps the recommendations free of duplicates if [st] did, and
    holds nothing new outside [vocab]. *)
Definition grows (vocab : list string) (st st' : state) : Prop :=
  (NoDup (recommendations st) -> NoDup (recommendations st'))
  /\ (forall x, In x (recommendations st') ->
                In x (recommendations st) \/ In x vocab).

(** The token is made of decimal digits only. *)
Fixpoint all_digits (s : string) : bool :=
  match s with
  | EmptyString => true
  | String c s' => JS.is_digit c && all_digits s'
  end.

(** The form with another pressure. *)
Definition with_pressure (f : form) (p : Q) : form :=
  {| mainFunction := mainFunction f; bodyBonnetMaterial := bodyBonnetMaterial f;
     temperature := temperature f; pressure := p;
     sealSurfaceMaterial := sealSurfaceMaterial f;
     nominalDiameter := nominalDiameter f; fluidType := fluidType f |}.

(** A form given by its function, material, seal, temperature, pressure,
    diameter and fluid, in this order. *)
Definition request (fn material seal : string) (t p : Q) (d fluid : string) : form :=
  {| mainFunction := fn; bodyBonnetMaterial := material; temperature := t;
     pressure := p; sealSurfaceMaterial := seal; nominalDiameter := d;
     fluidType := fluid |}.

(** ** The validity guard

    Every handler starts with
    [if (!form.checkValidity()) { ...; return; }] and so leaves the results
    alone on a form that is not valid.  [checkValidity] holds when every
    control of the form meets the constraints its markup declares.  For the
    controls read into [form] the two pages declare the same ones: the
    selects [mainFunction] and [bodyBonnetMaterial] are [required], which
    the empty value of their first option fails; [temperature] is a
    required number with [min="-200" max="850"], [pressure] one with
    [min="0" max="400"], each with the default step of 1 counted from its
    [min].  [others] is the verdict on the remaining controls of the
    page. *)





(** * Properties *)

(** ** Comparisons *)

Lemma Qleb_true (a b : Q) : JS.Qleb a b = true <-> a <= b.
Proof. apply Qle_bool_iff. Qed.

Lemma Qleb_false (a b : Q) : JS.Qleb a b = false <-> b < a.
Proof.
  unfold JS.Qleb. rewrite <- not_true_iff_false, Qle_bool_iff.
  split; [apply Qnot_le_lt | apply Qlt_not_le].
Qed.

Lemma Qgeb_true (a b : Q) : JS.Qgeb a b = true <-> b <= a.
Proof. apply Qle_bool_iff. Qed.

Lemma Qgtb_true (a b : Q) : JS.Qgtb a b = true <-> b < a.
Proof. unfold JS.Qgtb. rewrite negb_true_iff. apply Qleb_false. Qed.

Lemma Qgtb_false (a b : Q) : JS.Qgtb a b = false <-> a <= b.
Proof. unfold JS.Qgtb. rewrite negb_false_iff. apply Qleb_true. Qed.

Lemma Qltb_true (a b : Q) : JS.Qltb a b = true <-> a < b.
Proof. unfold JS.Qltb. rewrite negb_true_iff. apply Qleb_false. Qed.

Lemma Qltb_false (a b : Q) : JS.Qltb a b = false <-> b <= a.
Proof. unfold JS.Qltb. rewrite negb_false_iff. apply Qleb_true. Qed.

(** Turns the boolean tests of a goal and of its hypotheses into
    inequalities on rationals. *)
Ltac to_Q :=
  repeat match goal with
  | H : _ && _ = true |- _ => apply andb_true_iff in H; destruct H as [? ?]
  | H : _ || _ = false |- _ => apply orb_false_iff in H; destruct H as [? ?]
  | H : JS.Qleb _ _ = true |- _ => apply Qleb_true in H
  | H : JS.Qleb _ _ = false |- _ => apply Qleb_false in H
  | H : JS.Qgeb _ _ = true |- _ => apply Qgeb_true in H
  | H : JS.Qgtb _ _ = true |- _ => apply Qgtb_true in H
  | H : JS.Qgtb _ _ = false |- _ => apply Qgtb_false in H
  | H : JS.Qltb _ _ = true |- _ => apply Qltb_true in H
  | H : JS.Qltb _ _ = false |- _ => apply Qltb_false in H
  end.

(** ** The insertion-ordered set *)

Lemma has_In (s : list string) (x : string) : JS.has s x = true <-> In x s.
Proof.
  unfold JS.has. rewrite existsb_exists. split.
  - intros [y [Hin Hy]]. apply String.eqb_eq in Hy. now subst y.
  - intros Hin. exists x. split; [exact Hin | apply String.eqb_refl].
Qed.

Lemma add_In (x : string) (s : list string) : In x (JS.add x s).
Proof.
  unfold JS.add. destruct (JS.has s x) eqn:Hh.
  - now apply has_In.
  - apply in_or_app. right. now left.
Qed.

(** Adding never removes nor reorders what is already there. *)
Lemma add_extends (x : string) (s : list string) :
  exists t, JS.add x s = (s ++ t)%list.
Proof.
  unfold JS.add. destruct (JS.has s x).
  - exists []. now rewrite app_nil_r.
  - now exists [x].
Qed.

Lemma add_length (x : string) (s : list string) :
  (List.length (JS.add x s) <= S (List.length s))%nat.
Proof.
  unfold JS.add. destruct (JS.has s x).
  - lia.
  - rewrite length_app. simpl. lia.
Qed.

(** ** What a step may do to the accumulators *)

Lemma extends_refl (st : state) : extends st st.
Proof. exists []. now rewrite app_nil_r. Qed.

Lemma extends_trans (a b c : state) : extends a b -> extends b c -> extends a c.
Proof.
  intros [t Ht] [u Hu]. exists (t ++ u)%list. now rewrite Hu, Ht, app_assoc.
Qed.

Lemma extends_recommend (x : string) (st : state) : extends st (recommend x st).
Proof. unfold extends, recommend. simpl. apply add_extends. Qed.

Lemma extends_unsuitable (st : state) : extends st (unsuitable st).
Proof. exists []. simpl. now rewrite app_nil_r. Qed.

Lemma extends_In (x : string) (st st' : state) :
  extends st st' -> In x (recommendations st) -> In x (recommendations st').
Proof. intros [t Ht] Hin. rewrite Ht. apply in_or_app. now left. Qed.

Lemma extends_reject (x : string) (st : state) :
  extends st (recommend x (unsuitable st)).
Proof. unfold extends, recommend. simpl. apply add_extends. Qed.

Create HintDb steps.
#[local] Hint Resolve extends_refl extends_recommend extends_unsuitable
  extends_reject : steps.

Ltac quiet_branch :=
  intros; unfold quiet;
  repeat match goal with
  | |- context [if ?b then _ else _] => destruct b
  end; simpl; auto with steps.

Lemma quiet_cast_iron f mv st : quiet st (case_cast_iron f mv st).
Proof. unfold case_cast_iron. quiet_branch. Qed.

Lemma quiet_ductile_iron f mv st : quiet st (case_ductile_iron f mv st).
Proof. unfold case_ductile_iron. quiet_branch. Qed.

Lemma quiet_carbon_steel f mv st : quiet st (case_carbon_steel f mv st).
Proof. unfold case_carbon_steel. quiet_branch. Qed.

Lemma quiet_stainless_steel f mv st : quiet st (case_stainless_steel f mv st).
Proof. unfold case_stainless_steel. quiet_branch. Qed.

Lemma quiet_stainless_steel_310 f mv st :
  quiet st (Script.case_stainless_steel_310 f mv st).
Proof. unfold Script.case_stainless_steel_310. quiet_branch. Qed.

Lemma quiet_brass f mv st : quiet st (case_brass f mv st).
Proof.
  unfold case_brass, quiet.
  destruct (over_dn100 f), (chemically_aggressive f),
    (JS.Qleb (temperature f) 100 && JS.Qleb (pressure f) 64); simpl;
    split; auto with steps;
    eapply extends_trans; apply extends_recommend.
Qed.

Lemma quiet_bronze f mv st : quiet st (case_bronze f mv st).
Proof.
  unfold case_bronze, quiet.
  destruct (chemically_aggressive f),
    (JS.Qleb (temperature f) 100 && JS.Qleb (pressure f) 64); simpl;
    auto with steps.
Qed.

Lemma quiet_duplex f mv st : quiet st (case_duplex_super_duplex f mv st).
Proof. unfold case_duplex_super_duplex. quiet_branch. Qed.

Lemma quiet_plastic f mv st : quiet st (case_plastic f mv st).
Proof. unfold case_plastic. quiet_branch. Qed.

Lemma quiet_seal_switch f st : quiet st (seal_switch f st).
Proof. unfold seal_switch. quiet_branch. Qed.

#[local] Hint Resolve quiet_cast_iron quiet_ductile_iron quiet_carbon_steel
  quiet_stainless_steel quiet_stainless_steel_310 quiet_brass quiet_bronze
  quiet_duplex quiet_plastic quiet_seal_switch : steps.

Lemma script_switch_quiet f st : quiet st (Script.material_switch f st).
Proof.
  unfold Script.material_switch.
  repeat match goal with
  | |- context [if String.eqb ?a ?b then _ else _] => destruct (String.eqb a b)
  end; auto with steps.
  split; simpl; auto with steps.
Qed.

(** [seal_step] clears [suitable] exactly when a seal was chosen and found
    not viable. *)
Lemma seal_step_suitable f st :
  suitable (seal_step f st)
  = suitable st
    && (String.eqb (sealSurfaceMaterial f) "" || fst (seal_switch f st)).
Proof.
  unfold seal_step. destruct (String.eqb (sealSurfaceMaterial f) ""); simpl.
  - now rewrite andb_true_r.
  - destruct (quiet_seal_switch f st) as [Hs _].
    destruct (seal_switch f st) as [v st']. simpl in *.
    destruct v; simpl; [now rewrite andb_true_r | now rewrite andb_false_r].
Qed.

Lemma seal_step_extends f st : extends st (seal_step f st).
Proof.
  unfold seal_step. destruct (String.eqb (sealSurfaceMaterial f) "");
    [apply extends_refl |].
  destruct (quiet_seal_switch f st) as [_ He].
  destruct (seal_switch f st) as [v st']. simpl in *.
  destruct v; simpl; [exact He |].
  eapply extends_trans; [exact He |]. apply extends_reject.
Qed.

Lemma script_material_step_suitable f st :
  suitable (Script.material_step f st)
  = suitable st && fst (Script.material_switch f st).
Proof.
  unfold Script.material_step.
  destruct (script_switch_quiet f st) as [Hs _].
  destruct (Script.material_switch f st) as [v st']. simpl in *.
  destruct v; simpl; [now rewrite andb_true_r | now rewrite andb_false_r].
Qed.

Lemma script_material_step_extends f st : extends st (Script.material_step f st).
Proof.
  unfold Script.material_step.
  destruct (script_switch_quiet f st) as [_ He].
  destruct (Script.material_switch f st) as [v st']. simpl in *.
  destruct v; simpl; [exact He |].
  eapply extends_trans; [exact He |]. apply extends_reject.
Qed.

(** In the snapshot the [default] of the switch is not quiet: it clears
    [suitable] itself.  Every other branch is quiet, and is taken for a
    material name that is not empty. *)
Lemma snapshot_switch_cases f st :
  (bodyBonnetMaterial f <> "" /\ quiet st (Snapshot.material_switch f st))
  \/ Snapshot.material_switch f st
     = (false, recommend Snapshot.select_material_prompt (unsuitable st)).
Proof.
  unfold Snapshot.material_switch.
  assert (pick : forall c r, c <> "" -> quiet st r ->
            forall r', (bodyBonnetMaterial f <> "" /\ quiet st r')
                       \/ r' = (false, recommend Snapshot.select_material_prompt
                                        (unsuitable st)) ->
            (bodyBonnetMaterial f <> ""
             /\ quiet st (if String.eqb (bodyBonnetMaterial f) c then r else r'))
            \/ (if String.eqb (bodyBonnetMaterial f) c then r else r')
               = (false, recommend Snapshot.select_material_prompt (unsuitable st))).
  { intros c r Hc Hr r' Hr'.
    destruct (String.eqb_spec (bodyBonnetMaterial f) c) as [E | _];
      [left; split; [now rewrite E | exact Hr] | exact Hr']. }
  apply pick; [discriminate | auto with steps |].
  apply pick; [discriminate | auto with steps |].
  apply pick; [discriminate | auto with steps |].
  destruct (String.eqb_spec (bodyBonnetMaterial f) "stainless_steel") as [E | _];
    [left; split; [now rewrite E | simpl; auto with steps] |].
  simpl orb.
  apply pick; [discriminate | auto with steps |].
  apply pick; [discriminate | auto with steps |].
  apply pick; [discriminate | auto with steps |].
  apply pick; [discriminate | auto with steps |].
  apply pick; [discriminate | auto with steps |].
  now right.
Qed.

(** Either way the step clears [suitable] exactly when [materialViable] is
    false. *)
Lemma snapshot_material_step_suitable f st :
  suitable (Snapshot.material_step f st)
  = suitable st && fst (Snapshot.material_switch f st).
Proof.
  unfold Snapshot.material_step.
  destruct (snapshot_switch_cases f st) as [[Hm [Hs _]] | Hd].
  - apply String.eqb_neq in Hm. rewrite Hm.
    destruct (Snapshot.material_switch f st) as [v st']. simpl in *.
    destruct v; simpl; [now rewrite andb_true_r | now rewrite andb_false_r].
  - rewrite Hd. simpl.
    destruct (String.eqb (bodyBonnetMaterial f) ""); simpl;
      now rewrite andb_false_r.
Qed.

Lemma snapshot_material_step_extends f st :
  extends st (Snapshot.material_step f st).
Proof.
  unfold Snapshot.material_step.
  destruct (snapshot_switch_cases f st) as [[Hm [_ He]] | Hd].
  - destruct (Snapshot.material_switch f st) as [v st']. simpl in *.
    destruct (negb v && negb (String.eqb (bodyBonnetMaterial f) ""));
      [| exact He].
    eapply extends_trans; [exact He |]. apply extends_reject.
  - rewrite Hd. simpl.
    destruct (String.eqb (bodyBonnetMaterial f) ""); simpl.
    + apply extends_reject.
    + eapply extends_trans; apply extends_reject.
Qed.

(** ** The branch a material name selects *)

Lemma script_cast_iron (f : form) (st : state) :
  bodyBonnetMaterial f = "cast_iron" ->
  Script.material_switch f st = case_cast_iron f false st.
Proof. intros E. unfold Script.material_switch. rewrite E. reflexivity. Qed.

Lemma script_stainless_steel_310 (f : form) (st : state) :
  bodyBonnetMaterial f = "stainless_steel_310" ->
  Script.material_switch f st = Script.case_stainless_steel_310 f false st.
Proof. intros E. unfold Script.material_switch. rewrite E. reflexivity. Qed.

Lemma snapshot_stainless_steel_310 (f : form) (st : state) :
  bodyBonnetMaterial f = "stainless_steel_310" ->
  Snapshot.material_switch f st = case_stainless_steel f false st.
Proof. intros E. unfold Snapshot.material_switch. rewrite E. reflexivity. Qed.

Lemma script_brass (f : form) (st : state) :
  bodyBonnetMaterial f = "brass" ->
  Script.material_switch f st = case_brass f false st.
Proof. intros E. unfold Script.material_switch. rewrite E. reflexivity. Qed.

Lemma script_bronze (f : form) (st : state) :
  bodyBonnetMaterial f = "bronze" ->
  Script.material_switch f st = case_bronze f false st.
Proof. intros E. unfold Script.material_switch. rewrite E. reflexivity. Qed.

Lemma script_duplex (f : form) (st : state) :
  bodyBonnetMaterial f = "duplex_super_duplex" ->
  Script.material_switch f st = case_duplex_super_duplex f false st.
Proof. intros E. unfold Script.material_switch. rewrite E. reflexivity. Qed.

Lemma script_unset (f : form) (st : state) :
  bodyBonnetMaterial f = "" ->
  Script.material_switch f st = (true, st).
Proof. intros E. unfold Script.material_switch. rewrite E. reflexivity. Qed.

Lemma snapshot_unset (f : form) (st : state) :
  bodyBonnetMaterial f = "" ->
  Snapshot.material_switch f st
  = (false, recommend Snapshot.select_material_prompt (unsuitable st)).
Proof. intros E. unfold Snapshot.material_switch. rewrite E. reflexivity. Qed.

(** On the eight materials whose branches they share, the two synchronous
    handlers run the same switch. *)
Lemma snapshot_switch_agrees (f : form) (st : state) :
  In (bodyBonnetMaterial f)
     ["cast_iron"; "ductile_iron"; "carbon_steel"; "stainless_steel"; "brass";
      "bronze"; "duplex_super_duplex"; "plastic"] ->
  Snapshot.material_switch f st = Script.material_switch f st.
Proof.
  intros H. unfold Snapshot.material_switch, Script.material_switch.
  repeat (destruct H as [H | H]; [rewrite <- H; reflexivity |]).
  destruct H.
Qed.

(** ** Cast iron *)

(** C6.  With cast iron as the body material: when the fluid contains
    "steam" and the temperature is above 180 or the pressure above 10, the
    material is not viable and the steam-limit warning is in the
    recommendations; in every other case the material is viable exactly when
    the temperature is at most 184 and the pressure at most 16, both bounds
    included. *)
Theorem cast_iron_viability (f : form) (st : state) :
  bodyBonnetMaterial f = "cast_iron" ->
  let steam_limit :=
    JS.includes (fluidType f) "steam" = true
    /\ (180 < temperature f \/ 10 < pressure f) in
  (steam_limit ->
     fst (Script.material_switch f st) = false
     /\ In cast_iron_steam_warning
          (recommendations (snd (Script.material_switch f st))))
  /\ (~ steam_limit ->
      (fst (Script.material_switch f st) = true
       <-> temperature f <= 184 /\ pressure f <= 16)).
Proof.
  intros E steam_limit. rewrite (script_cast_iron f st E).
  unfold case_cast_iron, steam_limit. split.
  - intros [Hs Hlim].
    assert (Hc : JS.Qgtb (temperature f) 180 || JS.Qgtb (pressure f) 10 = true).
    { apply orb_true_iff. destruct Hlim as [H | H]; [left | right];
        now apply Qgtb_true. }
    rewrite Hs, Hc. simpl. split; [reflexivity | apply add_In].
  - intros Hno.
    destruct (JS.includes (fluidType f) "steam"
              && (JS.Qgtb (temperature f) 180 || JS.Qgtb (pressure f) 10)) eqn:Hc.
    + exfalso. apply Hno. apply andb_true_iff in Hc. destruct Hc as [Hs Hc].
      split; [exact Hs |]. apply orb_true_iff in Hc.
      destruct Hc as [H | H]; [left | right]; now apply Qgtb_true.
    + destruct (JS.Qleb (temperature f) 184 && JS.Qleb (pressure f) 16) eqn:Hr; simpl.
      * to_Q. tauto.
      * split; [discriminate |]. intros [Ht Hp].
        apply Qleb_true in Ht, Hp. rewrite Ht, Hp in Hr. discriminate.
Qed.

(** At 184 degrees and 16 bar cast iron is viable; at 184.01 degrees it is
    not. *)
Lemma cast_iron_viability_witness :
  bodyBonnetMaterial (cast_iron_at 184 16 "water") = "cast_iron"
  /\ fst (Script.material_switch (cast_iron_at 184 16 "water") initial) = true
  /\ fst (Script.material_switch (cast_iron_at (18401 # 100) 16 "water") initial) = false.
Proof.
  split; [reflexivity |]. split.
  - apply (cast_iron_viability (cast_iron_at 184 16 "water") initial eq_refl).
    + intros [H _]. discriminate H.
    + split; discriminate.
  - apply not_true_is_false. intros H.
    apply (cast_iron_viability (cast_iron_at (18401 # 100) 16 "water") initial eq_refl) in H.
    + destruct H as [Ht _]. now apply Ht.
    + intros [Hs _]. discriminate Hs.
Defined.

(** ** Brass and bronze *)

(** Whatever the diameter and the fluid, the verdict on brass is the one of
    the range check, which is the last statement of the branch. *)
Lemma brass_verdict (f : form) (st : state) :
  fst (case_brass f false st)
  = JS.Qleb (temperature f) 100 && JS.Qleb (pressure f) 64.
Proof.
  unfold case_brass.
  destruct (over_dn100 f), (chemically_aggressive f),
    (JS.Qleb (temperature f) 100 && JS.Qleb (pressure f) 64); reflexivity.
Qed.

Lemma bronze_verdict (f : form) (st : state) :
  fst (case_bronze f false st)
  = JS.Qleb (temperature f) 100 && JS.Qleb (pressure f) 64.
Proof.
  unfold case_bronze.
  destruct (chemically_aggressive f),
    (JS.Qleb (temperature f) 100 && JS.Qleb (pressure f) 64); reflexivity.
Qed.

(** C1.  Brass, then bronze, at 50 degrees and 20 bar in a fluid described
    as "corrosive fluid": the chemical warning is recommended, and yet
    [materialViable] leaves the switch as true and [suitable] stays true,
    because the range check runs after the chemical check and sets the
    verdict again. *)
Theorem copper_alloys_viable_despite_chemical_warning :
  let brass := copper_alloy_in_corrosive_fluid "brass" in
  let bronze := copper_alloy_in_corrosive_fluid "bronze" in
  chemically_aggressive brass = true
  /\ Script.material_switch brass initial
     = (true, recommend brass_chemical_warning initial)
  /\ Script.material_switch bronze initial
     = (true, recommend bronze_chemical_warning initial)
  /\ suitable (Script.evaluate brass) = true
  /\ suitable (Script.evaluate bronze) = true
  /\ Snapshot.material_switch brass initial = Script.material_switch brass initial
  /\ Snapshot.material_switch bronze initial = Script.material_switch bronze initial.
Proof. repeat split; vm_compute; reflexivity. Qed.

(** ** Stainless steel 310 *)

(** In [script.js] the 310 grade has its own range, up to 550 degrees. *)
Lemma script_stainless_steel_310_range (f : form) (st : state) :
  bodyBonnetMaterial f = "stainless_steel_310" ->
  (fst (Script.material_switch f st) = true
   <-> -200 <= temperature f /\ temperature f <= 550 /\ pressure f <= 400).
Proof.
  intros E. rewrite (script_stainless_steel_310 f st E).
  unfold Script.case_stainless_steel_310.
  destruct (JS.Qgeb (temperature f) (-200) && JS.Qleb (temperature f) 550
            && JS.Qleb (pressure f) 400) eqn:Hr; simpl.
  - to_Q. tauto.
  - split; [discriminate |]. intros [H1 [H2 H3]].
    apply Qgeb_true in H1. apply Qleb_true in H2, H3.
    rewrite H1, H2, H3 in Hr. discriminate.
Qed.

(** In the snapshot the 310 grade shares the statement of the 304-316
    grades, whose range stops at 420 degrees. *)
Lemma snapshot_stainless_steel_310_range (f : form) (st : state) :
  bodyBonnetMaterial f = "stainless_steel_310" ->
  (fst (Snapshot.material_switch f st) = true
   <-> -200 <= temperature f /\ temperature f <= 420 /\ pressure f <= 400).
Proof.
  intros E. rewrite (snapshot_stainless_steel_310 f st E).
  unfold case_stainless_steel.
  destruct (JS.Qgeb (temperature f) (-200) && JS.Qleb (temperature f) 420
            && JS.Qleb (pressure f) 400) eqn:Hr; simpl.
  - to_Q. tauto.
  - split; [discriminate |]. intros [H1 [H2 H3]].
    apply Qgeb_true in H1. apply Qleb_true in H2, H3.
    rewrite H1, H2, H3 in Hr. discriminate.
Qed.

(** C4.  Stainless steel 310 at 500 degrees and 100 bar, inside the range
    of the claim: viable for the handler of [script.js], rejected by the
    synchronous handler of the snapshot, which also declares the whole
    request unsuitable. *)
Theorem snapshot_rejects_stainless_steel_310_at_500 :
  fst (Script.material_switch stainless_steel_310_at_500 initial) = true
  /\ fst (Snapshot.material_switch stainless_steel_310_at_500
            (Snapshot.function_step stainless_steel_310_at_500 initial)) = false
  /\ suitable (Script.evaluate stainless_steel_310_at_500) = true
  /\ suitable (Snapshot.evaluate stainless_steel_310_at_500) = false.
Proof. repeat split; vm_compute; reflexivity. Qed.

(** ** No body material *)

(** The rules of [script.js] taken on their own, on a form with no
    material, which the validity guard does not let through: the [default]
    of the switch gives "viable" and adds nothing. *)
Lemma script_accepts_unset_material :
  Script.material_switch no_material (Script.function_step no_material initial)
  = (true, Script.function_step no_material initial)
  /\ Script.evaluate no_material
     = {| recommendations := Script.on_off_families; suitable := true |}.
Proof. split; vm_compute; reflexivity. Qed.

(** With no material chosen the snapshot reports it and rejects the
    request, whatever the other fields. *)
Lemma snapshot_rejects_unset_material (f : form) :
  bodyBonnetMaterial f = "" ->
  Snapshot.materialViable f = false
  /\ In Snapshot.select_material_prompt (recommendations (Snapshot.evaluate f))
  /\ suitable (Snapshot.evaluate f) = false.
Proof.
  intros E. unfold Snapshot.materialViable, Snapshot.evaluate.
  set (st := Snapshot.function_step f initial).
  assert (Hstep : Snapshot.material_step f st
                  = recommend Snapshot.select_material_prompt (unsuitable st)).
  { unfold Snapshot.material_step. rewrite (snapshot_unset f st E), E. reflexivity. }
  rewrite (snapshot_unset f st E), Hstep. repeat split.
  - eapply extends_In; [apply seal_step_extends |]. simpl. apply add_In.
  - rewrite seal_step_suitable. reflexivity.
Qed.

(** ** The function chain *)

Lemma recommend_all_suitable (xs : list string) (st : state) :
  suitable (recommend_all xs st) = suitable st.
Proof.
  unfold recommend_all. revert st.
  induction xs as [| x xs IH]; intros st; simpl; [reflexivity |].
  now rewrite IH.
Qed.

Lemma script_function_step_suitable (f : form) :
  suitable (Script.function_step f initial) = function_selected f.
Proof.
  unfold Script.function_step, function_selected.
  destruct (String.eqb (mainFunction f) "on_off");
    destruct (String.eqb (mainFunction f) "regulation");
    destruct (String.eqb (mainFunction f) "on_off_regulation");
    reflexivity.
Qed.

Lemma snapshot_function_step_suitable (f : form) :
  suitable (Snapshot.function_step f initial) = function_selected f.
Proof.
  unfold Snapshot.function_step, function_selected.
  destruct (String.eqb (mainFunction f) "on_off");
    destruct (String.eqb (mainFunction f) "regulation");
    destruct (String.eqb (mainFunction f) "on_off_regulation");
    reflexivity.
Qed.

(** On the fresh set the chain leaves the families of the chosen function,
    in the order of the calls. *)
Lemma script_function_step_families (f : form) :
  function_selected f = true ->
  recommendations (Script.function_step f initial) = Script.families (mainFunction f)
  /\ (3 <= List.length (Script.families (mainFunction f)))%nat.
Proof.
  unfold Script.function_step, Script.families, function_selected.
  destruct (String.eqb (mainFunction f) "on_off");
    destruct (String.eqb (mainFunction f) "regulation");
    destruct (String.eqb (mainFunction f) "on_off_regulation");
    intros H; try discriminate H; split; vm_compute; try reflexivity; lia.
Qed.

Lemma snapshot_function_step_families (f : form) :
  function_selected f = true ->
  recommendations (Snapshot.function_step f initial) = Snapshot.families (mainFunction f)
  /\ (3 <= List.length (Snapshot.families (mainFunction f)))%nat.
Proof.
  unfold Snapshot.function_step, Snapshot.families, function_selected.
  destruct (String.eqb (mainFunction f) "on_off");
    destruct (String.eqb (mainFunction f) "regulation");
    destruct (String.eqb (mainFunction f) "on_off_regulation");
    intros H; try discriminate H; split; vm_compute; try reflexivity; lia.
Qed.

(** ** The final verdict *)

Lemma script_suitable (f : form) :
  suitable (Script.evaluate f)
  = function_selected f && Script.materialViable f
    && (String.eqb (sealSurfaceMaterial f) "" || Script.sealViable f).
Proof.
  unfold Script.evaluate, Script.materialViable, Script.sealViable.
  now rewrite seal_step_suitable, script_material_step_suitable,
    script_function_step_suitable.
Qed.

Lemma snapshot_suitable (f : form) :
  suitable (Snapshot.evaluate f)
  = function_selected f && Snapshot.materialViable f
    && (String.eqb (sealSurfaceMaterial f) "" || Snapshot.sealViable f).
Proof.
  unfold Snapshot.evaluate, Snapshot.materialViable, Snapshot.sealViable.
  now rewrite seal_step_suitable, snapshot_material_step_suitable,
    snapshot_function_step_suitable.
Qed.

(** C3.  In both synchronous handlers the final [suitable] is the
    conjunction of three conditions and of nothing else: a primary function
    was selected, [materialViable] was true after the material switch, and
    the seal field was empty or [sealViable] was true after the seal
    switch. *)
Theorem suitable_is_the_conjunction_of_three_gates (f : form) :
  suitable (Script.evaluate f)
  = function_selected f && Script.materialViable f
    && (String.eqb (sealSurfaceMaterial f) "" || Script.sealViable f)
  /\ suitable (Snapshot.evaluate f)
     = function_selected f && Snapshot.materialViable f
       && (String.eqb (sealSurfaceMaterial f) "" || Snapshot.sealViable f).
Proof. split; [apply script_suitable | apply snapshot_suitable]. Qed.

(** The rules of the two revisions on a form with no material, the guard
    set aside: the snapshot leaves [materialViable] false, recommends the
    "select a material" prompt and ends unsuitable, whatever the other
    fields; [script.js] runs the [default] of its switch, and its verdict is
    then the one of the function and of the seal. *)
Lemma unset_material_by_revision (f : form) :
  bodyBonnetMaterial f = "" ->
  (Snapshot.materialViable f = false
   /\ In Snapshot.select_material_prompt (recommendations (Snapshot.evaluate f))
   /\ suitable (Snapshot.evaluate f) = false)
  /\ ((forall st, Script.material_switch f st = (true, st))
      /\ suitable (Script.evaluate f)
         = function_selected f
           && (String.eqb (sealSurfaceMaterial f) "" || Script.sealViable f)).
Proof.
  intros E. split; [now apply snapshot_rejects_unset_material |]. split.
  - intros st. now apply script_unset.
  - rewrite script_suitable. unfold Script.materialViable.
    rewrite (script_unset f _ E). simpl. now rewrite andb_true_r.
Qed.

Lemma unset_material_by_revision_witness :
  bodyBonnetMaterial no_material = ""
  /\ suitable (Snapshot.evaluate no_material) = false
  /\ suitable (Script.evaluate no_material) = true.
Proof.
  destruct (unset_material_by_revision no_material eq_refl)
    as [[_ [_ Hsnap]] [_ Hscript]].
  split; [reflexivity |].
  split; [exact Hsnap | rewrite Hscript; reflexivity].
Defined.



(** ** Families and the display *)

Lemma script_evaluate_extends (f : form) :
  extends (Script.function_step f initial) (Script.evaluate f).
Proof.
  unfold Script.evaluate. eapply extends_trans;
    [apply script_material_step_extends | apply seal_step_extends].
Qed.

Lemma snapshot_evaluate_extends (f : form) :
  extends (Snapshot.function_step f initial) (Snapshot.evaluate f).
Proof.
  unfold Snapshot.evaluate. eapply extends_trans;
    [apply snapshot_material_step_extends | apply seal_step_extends].
Qed.

(** A regulation valve in brass, DN150, at 150 degrees and 20 bar: the
    material is rejected, the recommendations hold the three families
    followed by two messages, and the page lists nothing. *)
Lemma families_not_shown_when_material_fails :
  function_selected brass_dn150_at_150 = true
  /\ suitable (Script.evaluate brass_dn150_at_150) = false
  /\ recommendations (Script.evaluate brass_dn150_at_150)
     = (Script.regulation_families ++ [brass_size_warning; no_material_match])%list
  /\ Script.submit brass_dn150_at_150 = {| valveList := []; noResultsMessage := true |}
  /\ Snapshot.submit brass_dn150_at_150 = {| valveList := []; noResultsMessage := true |}.
Proof. repeat split; vm_compute; reflexivity. Qed.

(** C7, as the handlers have it.  When a primary function is selected, the
    recommendations start with the families of that function, in their
    fixed order, and there are at least three of them, whatever the
    verdicts on the material and the seal; the page lists the
    recommendations when [suitable] is true, and lists nothing, showing the
    no-results message instead, when [suitable] is false. *)
Theorem families_kept_but_listed_only_when_suitable (f : form) :
  function_selected f = true ->
  ((3 <= List.length (Script.families (mainFunction f)))%nat
   /\ (exists rest, recommendations (Script.evaluate f)
                    = (Script.families (mainFunction f) ++ rest)%list)
   /\ (suitable (Script.evaluate f) = true ->
       Script.submit f
       = {| valveList := recommendations (Script.evaluate f);
            noResultsMessage := false |})
   /\ (suitable (Script.evaluate f) = false ->
       Script.submit f = {| valveList := []; noResultsMessage := true |}))
  /\ ((3 <= List.length (Snapshot.families (mainFunction f)))%nat
      /\ (exists rest, recommendations (Snapshot.evaluate f)
                       = (Snapshot.families (mainFunction f) ++ rest)%list)
      /\ (suitable (Snapshot.evaluate f) = true ->
          Snapshot.submit f
          = {| valveList := recommendations (Snapshot.evaluate f);
               noResultsMessage := false |})
      /\ (suitable (Snapshot.evaluate f) = false ->
          Snapshot.submit f = {| valveList := []; noResultsMessage := true |})).
Proof.
  intros Hf. split.
  - destruct (script_function_step_families f Hf) as [Hfam Hlen].
    destruct (script_evaluate_extends f) as [rest Hrest].
    rewrite Hfam in Hrest.
    assert (Hn : (3 <= List.length (recommendations (Script.evaluate f)))%nat).
    { rewrite Hrest, length_app. lia. }
    split; [exact Hlen |]. split; [now exists rest |].
    unfold Script.submit, Script.display. split; intros Hs; rewrite Hs.
    + destruct (List.length (recommendations (Script.evaluate f))) as [| n];
        [lia | reflexivity].
    + rewrite andb_false_r.
      destruct (List.length (recommendations (Script.evaluate f))) as [| [| n]];
        [lia | lia | reflexivity].
  - destruct (snapshot_function_step_families f Hf) as [Hfam Hlen].
    destruct (snapshot_evaluate_extends f) as [rest Hrest].
    rewrite Hfam in Hrest.
    assert (Hn : (3 <= List.length (recommendations (Snapshot.evaluate f)))%nat).
    { rewrite Hrest, length_app. lia. }
    split; [exact Hlen |]. split; [now exists rest |].
    unfold Snapshot.submit, Snapshot.display. split; intros Hs; rewrite Hs.
    + destruct (List.length (recommendations (Snapshot.evaluate f))) as [| n];
        [lia | reflexivity].
    + reflexivity.
Qed.

Lemma families_kept_but_listed_only_when_suitable_witness :
  function_selected brass_dn150_at_150 = true
  /\ (exists rest, recommendations (Script.evaluate brass_dn150_at_150)
                = (Script.regulation_families ++ rest)%list)
  /\ (exists rest, recommendations (Snapshot.evaluate brass_dn150_at_150)
                   = (Snapshot.regulation_families ++ rest)%list).
Proof.
  destruct (families_kept_but_listed_only_when_suitable brass_dn150_at_150 eq_refl)
    as [[_ [H1 _]] [_ [H2 _]]].
  split; [reflexivity |]. split; [exact H1 | exact H2].
Defined.

(** ** Duplex and super duplex *)

(** A fluid described as "sea_water", with an underscore: duplex is viable,
    and nothing is recommended about sea water. *)
Lemma duplex_silent_on_sea_underscore_water :
  JS.includes "sea_water" "sea water" = false
  /\ Script.material_switch (duplex_in "sea_water") initial = (true, initial)
  /\ Snapshot.material_switch (duplex_in "sea_water") initial = (true, initial).
Proof. repeat split; vm_compute; reflexivity. Qed.

(** C9, as the handlers have it.  Duplex / super duplex is viable for every
    temperature, pressure, fluid and diameter; the note that recommends it
    for sea water is added exactly when the fluid descriptor contains
    "sea water", written with a space, and nothing else is added. *)
Theorem duplex_always_viable_note_on_sea_water (f : form) (st : state) :
  bodyBonnetMaterial f = "duplex_super_duplex" ->
  fst (Script.material_switch f st) = true
  /\ snd (Script.material_switch f st)
     = (if JS.includes (fluidType f) "sea water"
        then recommend duplex_sea_water_note st else st)
  /\ (JS.includes (fluidType f) "sea water" = true ->
      In duplex_sea_water_note
         (recommendations (snd (Script.material_switch f st)))).
Proof.
  intros E. rewrite (script_duplex f st E). unfold case_duplex_super_duplex.
  destruct (JS.includes (fluidType f) "sea water"); simpl.
  - repeat split. intros _. apply add_In.
  - repeat split. discriminate.
Qed.

Lemma duplex_always_viable_note_on_sea_water_witness :
  bodyBonnetMaterial (duplex_in "sea water") = "duplex_super_duplex"
  /\ fst (Script.material_switch (duplex_in "sea water") initial) = true
  /\ In duplex_sea_water_note
       (recommendations (snd (Script.material_switch (duplex_in "sea water") initial))).
Proof.
  destruct (duplex_always_viable_note_on_sea_water (duplex_in "sea water") initial eq_refl)
    as [Hv [_ Hn]].
  split; [reflexivity |]. split; [exact Hv | now apply Hn].
Defined.

(** ** The pressure/temperature checks *)

(** The chain does what the first matching check of the table says: it
    recommends that warning and clears [suitable]; with no match it leaves
    the state as it was. *)
Lemma envelope_follows_table (t p : Q) (st : state) :
  Advisor.envelope t p st
  = match Advisor.first_match t p with
    | Some w => unsuitable (recommend w st)
    | None => st
    end.
Proof.
  unfold Advisor.envelope, Advisor.first_match, Advisor.checks.
  cbn [find fst snd option_map].
  repeat match goal with
  | |- context [if ?b then _ else _] => destruct b; cbn [option_map snd]
  end; reflexivity.
Qed.

(** Whatever passes the fifth check passes the second, and whatever passes
    the sixth passes the first: their warnings are never the chosen one.  At
    500 degrees and half a bar, for one, the first warning is given. *)
Lemma checks_5_and_6_are_shadowed (t p : Q) :
  Advisor.first_match t p <> Some Advisor.warning_5
  /\ Advisor.first_match t p <> Some Advisor.warning_6.
Proof.
  unfold Advisor.first_match, Advisor.checks.
  cbn [find fst snd option_map].
  destruct (JS.Qgtb t Advisor.HIGH_TEMP_THRESHOLD
            && JS.Qltb p Advisor.LOW_PRESSURE_THRESHOLD) eqn:H1;
    [split; discriminate |].
  destruct (JS.Qltb t Advisor.VERY_LOW_TEMP_THRESHOLD
            && JS.Qgtb p Advisor.HIGH_PRESSURE_THRESHOLD) eqn:H2;
    [split; discriminate |].
  destruct (JS.Qgtb p Advisor.EXTREME_HIGH_PRESSURE_THRESHOLD
            && JS.Qgtb t Advisor.EXTREME_HIGH_TEMP_THRESHOLD) eqn:H3;
    [split; discriminate |].
  destruct (JS.Qltb p Advisor.VACUUM_PRESSURE_THRESHOLD
            && JS.Qltb t Advisor.EXTREME_LOW_TEMP_THRESHOLD) eqn:H4;
    [split; discriminate |].
  destruct (JS.Qgtb p Advisor.EXTREME_HIGH_PRESSURE_THRESHOLD
            && JS.Qltb t Advisor.VERY_LOW_TEMP_THRESHOLD) eqn:H5.
  { exfalso. to_Q. apply andb_false_iff in H2.
    unfold Advisor.VERY_LOW_TEMP_THRESHOLD, Advisor.HIGH_PRESSURE_THRESHOLD,
      Advisor.EXTREME_HIGH_PRESSURE_THRESHOLD in *.
    destruct H2 as [H2 | H2]; to_Q; lra. }
  destruct (JS.Qltb p Advisor.LOW_PRESSURE_THRESHOLD
            && JS.Qgtb t Advisor.EXTREME_HIGH_TEMP_THRESHOLD) eqn:H6.
  { exfalso. to_Q. apply andb_false_iff in H1.
    unfold Advisor.HIGH_TEMP_THRESHOLD, Advisor.LOW_PRESSURE_THRESHOLD,
      Advisor.EXTREME_HIGH_TEMP_THRESHOLD in *.
    destruct H1 as [H1 | H1]; to_Q; lra. }
  split; discriminate.
Qed.

(** The literal [0.1] of the script denotes the threshold of the model. *)
Lemma vacuum_threshold_is_the_literal :
  exists q, JS.parseFloat "0.1" = JS.Finite q /\ q == Advisor.VACUUM_PRESSURE_THRESHOLD.
Proof. eexists. split; [vm_compute; reflexivity | reflexivity]. Qed.

(** What the checks did to [suitable] does not reach the page: every way
    out of the [try] statement assigns the flag again. *)
Lemma backend_decides_suitable (t p t' p' : Q) (x : Advisor.exchange) :
  suitable (Advisor.evaluate t p x) = suitable (Advisor.evaluate t' p' x).
Proof. destruct x as [| [| r rs] no]; reflexivity. Qed.

(** The store the checks leave for the [try] statement.  They leave the
    state unchanged when no check matches; when one matches they recommend
    its warning and write [false] to [suitable].  That write is never read:
    the exchange with the backend assigns the flag again. *)
Lemma envelope_clears_suitable_exactly_when_it_warns (t p : Q) (st : state) :
  ((Advisor.first_match t p = None /\ Advisor.envelope t p st = st)
   \/ (exists w, Advisor.first_match t p = Some w
                 /\ recommendations (Advisor.envelope t p st)
                    = JS.add w (recommendations st)
                 /\ suitable (Advisor.envelope t p st) = false))
  /\ (forall t' p' x,
        suitable (Advisor.evaluate t p x) = suitable (Advisor.evaluate t' p' x)).
Proof.
  split; [| intros t' p' x; apply backend_decides_suitable].
  rewrite envelope_follows_table.
  destruct (Advisor.first_match t p) as [w |].
  - right. exists w. repeat split.
  - now left.
Qed.

(** What [recommend_all] leaves in the set depends on the set it starts
    from, not on the flag. *)
Lemma recommend_all_reads_the_set_only (xs : list string) (st st' : state) :
  recommendations st = recommendations st' ->
  recommendations (recommend_all xs st) = recommendations (recommend_all xs st').
Proof.
  unfold recommend_all. revert st st'.
  induction xs as [| x xs IH]; intros st st' E; [exact E |].
  cbn [fold_left]. apply IH. cbn [recommendations recommend]. now rewrite E.
Qed.

(** C2.  The pressure/temperature checks contribute their warning to the
    result and nothing else.  For every temperature, pressure and exchange
    with the backend, the state the handler ends with is the one it would
    end with had the checks added their warning and left [suitable] as it
    was; its [suitable] is the one of a run without the checks, and is the
    same for all temperatures and pressures. *)
Theorem envelope_contributes_only_warnings (t p : Q) (x : Advisor.exchange) :
  Advisor.evaluate t p x
  = Advisor.backend_step x
      {| recommendations := recommendations (Advisor.envelope t p initial);
         suitable := suitable initial |}
  /\ suitable (Advisor.evaluate t p x) = suitable (Advisor.backend_step x initial)
  /\ (forall t' p',
        suitable (Advisor.evaluate t p x) = suitable (Advisor.evaluate t' p' x)).
Proof.
  split; [| split].
  - unfold Advisor.evaluate. destruct x as [| [| r rs] no];
      cbn [Advisor.backend_step]; try reflexivity.
    f_equal. now apply recommend_all_reads_the_set_only.
  - unfold Advisor.evaluate. destruct x as [| [| r rs] no]; reflexivity.
  - intros t' p'. apply backend_decides_suitable.
Qed.

(** C5.  On the fresh set the checks leave at most one warning, the one of
    the first check of the table whose condition holds; at 450 degrees and
    250 bar this is the warning of the third check, and the warning of the
    sixth is not recommended. *)
Theorem envelope_first_match_wins (t p : Q) :
  recommendations (Advisor.envelope t p initial)
  = match Advisor.first_match t p with Some w => [w] | None => [] end
  /\ (List.length (recommendations (Advisor.envelope t p initial)) <= 1)%nat
  /\ Advisor.first_match 450 250 = Some Advisor.warning_3
  /\ recommendations (Advisor.envelope 450 250 initial) = [Advisor.warning_3]
  /\ JS.has (recommendations (Advisor.envelope 450 250 initial)) Advisor.warning_6
     = false.
Proof.
  rewrite envelope_follows_table.
  destruct (Advisor.first_match t p) as [w |]; simpl;
    repeat split; try lia; vm_compute; reflexivity.
Qed.

(** ** Rounding and the comparison with 100 *)

(** Rounding to an integer never goes above an integer bound of its
    argument, nor below zero for an argument that is not negative. *)
Lemma round_half_even_le (q : Q) (n : Z) :
  q <= inject_Z n -> (JS.round_half_even q <= n)%Z.
Proof.
  intros Hq. unfold JS.round_half_even.
  pose proof (Qfloor_le q) as Hf.
  assert (Hfn : (Qfloor q <= n)%Z).
  { rewrite Zle_Qle. eapply Qle_trans; eassumption. }
  assert (Hup : 1 # 2 <= q - inject_Z (Qfloor q) -> (Qfloor q + 1 <= n)%Z).
  { intros Hh. apply Z.lt_succ_r. rewrite <- Z.add_1_r.
    apply -> Z.add_lt_mono_r. rewrite Zlt_Qlt. lra. }
  destruct (Qcompare (q - inject_Z (Qfloor q)) (1 # 2)) eqn:Hc.
  - destruct (Z.even (Qfloor q)); [exact Hfn |].
    apply Hup. apply Qeq_alt in Hc. rewrite Hc. apply Qle_refl.
  - exact Hfn.
  - apply Hup. apply Qgt_alt in Hc. now apply Qlt_le_weak.
Qed.

Lemma round_half_even_nonneg (q : Q) : 0 <= q -> (0 <= JS.round_half_even q)%Z.
Proof.
  intros Hq. unfold JS.round_half_even.
  assert (Hf : (0 <= Qfloor q)%Z).
  { change 0%Z with (Qfloor 0). now apply Qfloor_resp_le. }
  destruct (Qcompare (q - inject_Z (Qfloor q)) (1 # 2));
    [destruct (Z.even (Qfloor q)) | |]; lia.
Qed.

Lemma pow2_pos (e : Z) : 0 < JS.pow2 e.
Proof.
  unfold JS.pow2. destruct (0 <=? e)%Z eqn:He.
  - apply Z.leb_le in He. change 0 with (inject_Z 0). rewrite <- Zlt_Qlt.
    now apply Z.pow_pos_nonneg.
  - apply Z.leb_gt in He. apply Qinv_lt_0_compat.
    change 0 with (inject_Z 0). rewrite <- Zlt_Qlt.
    apply Z.pow_pos_nonneg; lia.
Qed.

(** A positive rational that is at most 100 lies below [2^7]. *)
Lemma floor_log2_le_6 (x : Q) : 0 < x -> x <= 100 -> (JS.floor_log2 x <= 6)%Z.
Proof.
  intros Hpos Hle. unfold JS.floor_log2.
  set (k := (Z.log2 (Qnum x) - Z.log2 (Z.pos (Qden x)))%Z).
  assert (Hk : (k <= 7)%Z).
  { unfold k. unfold Qle in Hle. simpl in Hle.
    assert (Hn : (Qnum x <= Z.pos (Qden x) * 2 ^ 7)%Z) by lia.
    apply Z.log2_le_mono in Hn.
    rewrite Z.log2_mul_pow2 in Hn; lia. }
  destruct (JS.Qltb x (JS.pow2 k)) eqn:Ht; [lia |].
  apply Qltb_false in Ht.
  destruct (Z.le_gt_cases k 6) as [H6 | H6]; [exact H6 | exfalso].
  assert (Hk7 : k = 7%Z) by lia. rewrite Hk7 in Ht.
  assert (H : JS.pow2 7 <= 100) by (eapply Qle_trans; eassumption).
  vm_compute in H. now apply H.
Qed.

(** Rounding a positive rational that is at most 100 gives a finite
    number between 0 and 100: 100 is itself a binary64 number. *)
Lemma round_binary64_pos_le_100 (x : Q) :
  0 < x -> x <= 100 ->
  exists y, JS.round_binary64_pos x = JS.Finite y /\ 0 <= y /\ y <= 100.
Proof.
  intros Hpos Hle. unfold JS.round_binary64_pos.
  pose proof (floor_log2_le_6 x Hpos Hle) as Hk.
  set (e := Z.max (JS.floor_log2 x - 52) (-1074)).
  assert (He : (e <= -46)%Z) by (unfold e; lia).
  set (M := (2 ^ (- e))%Z).
  assert (HM : (0 < M)%Z) by (apply Z.pow_pos_nonneg; lia).
  assert (HMq : 0 < inject_Z M)
    by (change 0 with (inject_Z 0); now rewrite <- Zlt_Qlt).
  assert (Hp : JS.pow2 e = / inject_Z M).
  { unfold JS.pow2. destruct (0 <=? e)%Z eqn:H0; [| reflexivity].
    apply Z.leb_le in H0. lia. }
  rewrite Hp.
  set (q := x / / inject_Z M).
  assert (Hq : q == x * inject_Z M).
  { unfold q, Qdiv. now rewrite Qinv_involutive. }
  assert (Hq0 : 0 <= q).
  { rewrite Hq. apply Qmult_le_0_compat; [now apply Qlt_le_weak |].
    now apply Qlt_le_weak. }
  assert (Hq100 : q <= inject_Z (100 * M)).
  { rewrite Hq, inject_Z_mult. apply Qmult_le_compat_r; [exact Hle |].
    now apply Qlt_le_weak. }
  pose proof (round_half_even_le q (100 * M) Hq100) as Hr.
  pose proof (round_half_even_nonneg q Hq0) as Hr0.
  set (r := JS.round_half_even q) in *.
  assert (Hy0 : 0 <= inject_Z r * / inject_Z M).
  { apply Qmult_le_0_compat.
    - change 0 with (inject_Z 0). now rewrite <- Zle_Qle.
    - apply Qlt_le_weak. now apply Qinv_lt_0_compat. }
  assert (Hy100 : inject_Z r * / inject_Z M <= 100).
  { apply Qle_shift_div_r; [exact HMq |].
    change 100 with (inject_Z 100). rewrite <- inject_Z_mult, <- Zle_Qle.
    exact Hr. }
  assert (Hfin : JS.Qleb (JS.pow2 1024) (inject_Z r * / inject_Z M) = false).
  { apply Qleb_false. eapply Qle_lt_trans; [exact Hy100 |].
    vm_compute. reflexivity. }
  rewrite Hfin. eexists. split; [reflexivity |]. now split.
Qed.

(** A literal whose value is at most 100 is not read as a number above
    100, however it is rounded. *)
Lemma round_binary64_le_100 (v : Q) :
  v <= 100 -> JS.gt (JS.round_binary64 v) (JS.Finite 100) = false.
Proof.
  intros Hv. unfold JS.round_binary64.
  destruct (Qcompare v 0) eqn:Hc.
  - reflexivity.
  - apply Qlt_alt in Hc.
    assert (Hpos : 0 < - v) by lra.
    destruct (JS.round_binary64_pos (- v)) as [| n | y] eqn:Hr; try reflexivity.
    unfold JS.round_binary64_pos in Hr.
    destruct (JS.Qleb _ _) in Hr; [discriminate Hr |].
    injection Hr as Hy. simpl. apply Qgtb_false.
    assert (H0 : 0 <= y).
    { rewrite <- Hy. apply Qmult_le_0_compat.
      - change 0 with (inject_Z 0). rewrite <- Zle_Qle.
        apply round_half_even_nonneg.
        apply Qle_shift_div_l; [apply pow2_pos |]. lra.
      - apply Qlt_le_weak, pow2_pos. }
    lra.
  - apply Qgt_alt in Hc.
    destruct (round_binary64_pos_le_100 v Hc Hv) as [y [Hr [_ Hy]]].
    rewrite Hr. simpl. now apply Qgtb_false.
Qed.

(** ** The diameter token *)

(** Of a token without digits the replacement keeps dots only. *)
Lemma replace_without_digit (d : string) :
  has_digit d = false -> all_dots (JS.replace_non_digit_dot d) = true.
Proof.
  induction d as [| c d IH]; simpl; [reflexivity |].
  intros H. apply orb_false_iff in H. destruct H as [Hc Hd].
  rewrite Hc. simpl. destruct (Ascii.eqb c ".") eqn:E; simpl.
  - rewrite E. simpl. now apply IH.
  - now apply IH.
Qed.

(** A string of dots starts with no decimal literal. *)
Lemma parseFloat_dots (s : string) : all_dots s = true -> JS.parseFloat s = JS.NaN.
Proof.
  destruct s as [| c s]; [reflexivity |]. simpl.
  intros H. apply andb_true_iff in H. destruct H as [Hc Hs].
  apply Ascii.eqb_eq in Hc. subst c.
  destruct s as [| c s]; [reflexivity |]. simpl in Hs.
  apply andb_true_iff in Hs. destruct Hs as [Hc _].
  apply Ascii.eqb_eq in Hc. subst c. reflexivity.
Qed.

(** A token that contains "dn100" holds a digit. *)
Lemma includes_dn100_has_digit (d : string) :
  JS.includes d "dn100" = true -> has_digit d = true.
Proof.
  induction d as [| c d IH]; cbn [JS.includes has_digit prefix];
    [discriminate |].
  intros H. apply orb_true_iff in H. destruct H as [H | H].
  - destruct (ascii_dec "d" c) as [_ | _]; [| discriminate H].
    destruct d as [| c1 d]; [discriminate H |]. cbn [prefix] in H.
    destruct (ascii_dec "n" c1) as [_ | _]; [| discriminate H].
    destruct d as [| c2 d]; [discriminate H |]. cbn [prefix] in H.
    destruct (ascii_dec "1" c2) as [E | _]; [| discriminate H].
    subst c2. cbn [has_digit]. change (JS.is_digit "1") with true.
    now rewrite !orb_true_r.
  - rewrite (IH H). apply orb_true_r.
Qed.

(** What the replacement leaves starts, if it is not empty, with a digit or
    a dot. *)
Lemma replace_head (d : string) :
  JS.replace_non_digit_dot d = ""
  \/ exists c r, JS.replace_non_digit_dot d = String c r
                 /\ JS.is_digit c || Ascii.eqb c "." = true.
Proof.
  induction d as [| c d IH]; simpl; [now left |].
  destruct (JS.is_digit c || Ascii.eqb c ".") eqn:E; [| exact IH].
  right. now exists c, (JS.replace_non_digit_dot d).
Qed.

(** A digit or a dot is not white space, is not a sign and does not start
    [Infinity]: the literal at the head of such a string is an unsigned
    decimal one. *)
Lemma literal_after_digit_or_dot (c : ascii) (r : string) :
  JS.is_digit c || Ascii.eqb c "." = true ->
  JS.trim_start (String c r) = String c r
  /\ JS.str_decimal_literal (String c r)
     = option_map JS.LitDecimal (JS.decimal (String c r)).
Proof.
  intros H.
  destruct c as [[] [] [] [] [] [] [] []];
    vm_compute in H; try discriminate H; split; reflexivity.
Qed.

(** What [parseFloat] makes of the replacement is the rounded value of the
    decimal literal at its head, and NaN when there is none. *)
Lemma parseFloat_replace (d : string) :
  JS.parseFloat (JS.replace_non_digit_dot d)
  = match JS.decimal (JS.replace_non_digit_dot d) with
    | Some v => JS.round_binary64 v
    | None => JS.NaN
    end
  /\ JS.str_decimal_literal (JS.replace_non_digit_dot d)
     = option_map JS.LitDecimal (JS.decimal (JS.replace_non_digit_dot d)).
Proof.
  destruct (replace_head d) as [E | [c [r [E H]]]]; rewrite E.
  - split; reflexivity.
  - destruct (literal_after_digit_or_dot c r H) as [Ht Hl].
    unfold JS.parseFloat. rewrite Ht, Hl.
    destruct (JS.decimal (String c r)); split; reflexivity.
Qed.

(** When the first test of the brass branch holds, the token contains
    "dn100" or the decimal literal left by the replacement is above 100. *)
Lemma over_dn100_only_if (f : form) :
  over_dn100 f = true ->
  JS.includes (nominalDiameter f) "dn100" = true
  \/ exists v, JS.str_decimal_literal (JS.replace_non_digit_dot (nominalDiameter f))
               = Some (JS.LitDecimal v)
               /\ 100 < v.
Proof.
  unfold over_dn100. intros H. apply orb_true_iff in H.
  destruct H as [H | H]; [now left | right].
  apply andb_true_iff in H. destruct H as [_ H].
  destruct (parseFloat_replace (nominalDiameter f)) as [Hp Hl].
  rewrite Hp in H. rewrite Hl.
  destruct (JS.decimal (JS.replace_non_digit_dot (nominalDiameter f))) as [v |];
    [| discriminate H].
  exists v. split; [reflexivity |].
  apply Qnot_le_lt. intros Hv.
  rewrite (round_binary64_le_100 v Hv) in H. discriminate H.
Qed.

(** A token without digits does not pass the first test of the brass
    branch. *)
Lemma over_dn100_needs_digit (f : form) :
  has_digit (nominalDiameter f) = false ->
  JS.parseFloat (JS.replace_non_digit_dot (nominalDiameter f)) = JS.NaN
  /\ over_dn100 f = false.
Proof.
  intros Hd.
  assert (Hn : JS.parseFloat (JS.replace_non_digit_dot (nominalDiameter f)) = JS.NaN)
    by now apply parseFloat_dots, replace_without_digit.
  split; [exact Hn |]. unfold over_dn100. rewrite Hn.
  destruct (JS.includes (nominalDiameter f) "dn100") eqn:Hi.
  - apply includes_dn100_has_digit in Hi. congruence.
  - simpl. apply andb_false_r.
Qed.

(** C10.  The brass branch gives a verdict and a state for every diameter
    token.  Its size test holds only for a token that contains "dn100" or
    whose digits and dots start with a decimal literal above 100.  A token
    without digits (the empty one among them) is parsed as NaN, NaN is not
    above 100, the size test fails, and the branch then does what it would
    without the size test: the verdict is the one of the range check and
    the only warning it may add is the chemical one. *)
Theorem brass_size_test_on_every_token (f : form) (st : state) :
  (exists v st', case_brass f false st = (v, st'))
  /\ (over_dn100 f = true ->
      JS.includes (nominalDiameter f) "dn100" = true
      \/ exists v,
           JS.str_decimal_literal (JS.replace_non_digit_dot (nominalDiameter f))
           = Some (JS.LitDecimal v)
           /\ 100 < v)
  /\ (has_digit (nominalDiameter f) = false ->
      JS.parseFloat (JS.replace_non_digit_dot (nominalDiameter f)) = JS.NaN
      /\ JS.gt JS.NaN (JS.Finite 100) = false
      /\ over_dn100 f = false
      /\ (bodyBonnetMaterial f = "brass" ->
          Script.material_switch f st
          = (JS.Qleb (temperature f) 100 && JS.Qleb (pressure f) 64,
             if chemically_aggressive f
             then recommend brass_chemical_warning st else st))
      /\ (bodyBonnetMaterial f = "brass" ->
          In brass_size_warning
             (recommendations (snd (Script.material_switch f st))) ->
          In brass_size_warning (recommendations st))).
Proof.
  split; [| split].
  - destruct (case_brass f false st) as [v st']. now exists v, st'.
  - apply over_dn100_only_if.
  - intros Hd. destruct (over_dn100_needs_digit f Hd) as [Hn Ho].
    assert (Hsw : bodyBonnetMaterial f = "brass" ->
                  Script.material_switch f st
                  = (JS.Qleb (temperature f) 100 && JS.Qleb (pressure f) 64,
                     if chemically_aggressive f
                     then recommend brass_chemical_warning st else st)).
    { intros E. rewrite (script_brass f st E). unfold case_brass. rewrite Ho.
      destruct (chemically_aggressive f),
        (JS.Qleb (temperature f) 100 && JS.Qleb (pressure f) 64); reflexivity. }
    repeat split; try assumption.
    intros E. rewrite (Hsw E). simpl.
    destruct (chemically_aggressive f); [| trivial].
    simpl. unfold JS.add.
    destruct (JS.has (recommendations st) brass_chemical_warning); [trivial |].
    intros Hin. apply in_app_or in Hin. destruct Hin as [Hin | [Hin | []]];
      [exact Hin | discriminate Hin].
Qed.

(** The size test on a few tokens: digits scattered in the token are read
    as one number, and a value that rounds to 100 is not above it. *)
Example size_test_on_tokens :
  map (fun d => over_dn100 (brass_of_diameter d))
      [""; "abc"; "."; "dn100"; "dn 100"; "100"; "100.5"; "dn150"; "4 in";
       "dn 50 pn 16"; "100.00000000000000001"]
  = [false; false; false; true; false; false; true; true; false; true; false].
Proof. vm_compute. reflexivity. Qed.

(** * Further properties of the handlers *)

(** ** Growth of the set of recommendations *)

Lemma add_NoDup (x : string) (s : list string) : NoDup s -> NoDup (JS.add x s).
Proof.
  intros Hs. unfold JS.add. destruct (JS.has s x) eqn:Hh; [exact Hs |].
  apply NoDup_app; [exact Hs | repeat constructor; intros [] |].
  intros y Hy [Hx | []]. subst y.
  apply has_In in Hy. congruence.
Qed.

Lemma add_In_inv (x y : string) (s : list string) :
  In y (JS.add x s) -> In y s \/ y = x.
Proof.
  unfold JS.add. destruct (JS.has s x); [now left |].
  intros H. apply in_app_or in H. destruct H as [H | [H | []]]; auto.
Qed.

Lemma grows_refl vocab st : grows vocab st st.
Proof. split; auto. Qed.

Lemma grows_trans vocab a b c : grows vocab a b -> grows vocab b c -> grows vocab a c.
Proof.
  intros [N1 V1] [N2 V2]. split; [auto |].
  intros x Hx. destruct (V2 x Hx) as [H | H]; auto.
Qed.

Lemma grows_weaken vocab vocab' st st' :
  incl vocab vocab' -> grows vocab st st' -> grows vocab' st st'.
Proof.
  intros Hi [N V]. split; [exact N |].
  intros x Hx. destruct (V x Hx) as [H | H]; auto.
Qed.

Lemma grows_recommend vocab x st : In x vocab -> grows vocab st (recommend x st).
Proof.
  intros Hx. split; simpl.
  - apply add_NoDup.
  - intros y Hy. apply add_In_inv in Hy. destruct Hy as [Hy | Hy]; subst; auto.
Qed.

Lemma grows_unsuitable vocab st : grows vocab st (unsuitable st).
Proof. split; simpl; auto. Qed.

Lemma grows_reject vocab x st :
  In x vocab -> grows vocab st (recommend x (unsuitable st)).
Proof.
  intros Hx. eapply grows_trans;
    [apply grows_unsuitable | now apply grows_recommend].
Qed.

Lemma grows_recommend_all vocab xs st :
  incl xs vocab -> grows vocab st (recommend_all xs st).
Proof.
  unfold recommend_all. revert st.
  induction xs as [| x xs IH]; intros st Hi; simpl; [apply grows_refl |].
  eapply grows_trans.
  - apply (grows_recommend vocab x st). apply Hi. now left.
  - apply IH. intros y Hy. apply Hi. now right.
Qed.

(** Membership in a list given by its elements. *)
Ltac pick_in := simpl; repeat first [now left | right].

Ltac grows_branch :=
  repeat match goal with
  | |- context [if ?b then _ else _] => destruct b
  end; simpl;
  first [ apply grows_refl
        | apply grows_recommend; pick_in
        | eapply grows_trans; apply grows_recommend; pick_in ].

Lemma grows_script_switch f st :
  grows material_messages st (snd (Script.material_switch f st)).
Proof.
  unfold Script.material_switch, case_cast_iron, case_ductile_iron,
    case_carbon_steel, case_stainless_steel, Script.case_stainless_steel_310,
    case_brass, case_bronze, case_duplex_super_duplex, case_plastic.
  grows_branch.
Qed.

Lemma grows_seal_switch f st : grows seal_messages st (snd (seal_switch f st)).
Proof. unfold seal_switch. grows_branch. Qed.

Lemma grows_seal_step f st :
  grows (seal_messages ++ [no_seal_match]) st (seal_step f st).
Proof.
  unfold seal_step. destruct (String.eqb (sealSurfaceMaterial f) "");
    [apply grows_refl |].
  pose proof (grows_seal_switch f st) as Hg.
  destruct (seal_switch f st) as [v st']. simpl in Hg.
  apply (grows_weaken _ (seal_messages ++ [no_seal_match])) in Hg;
    [| apply incl_appl, incl_refl].
  destruct v; simpl; [exact Hg |].
  eapply grows_trans; [exact Hg |]. apply grows_reject. pick_in.
Qed.

Lemma grows_script_material_step f st :
  grows (material_messages ++ [no_material_match]) st (Script.material_step f st).
Proof.
  unfold Script.material_step.
  pose proof (grows_script_switch f st) as Hg.
  destruct (Script.material_switch f st) as [v st']. simpl in Hg.
  apply (grows_weaken _ (material_messages ++ [no_material_match])) in Hg;
    [| apply incl_appl, incl_refl].
  destruct v; simpl; [exact Hg |].
  eapply grows_trans; [exact Hg |]. apply grows_reject. pick_in.
Qed.

Lemma grows_script_function_step f st :
  grows (Script.on_off_families ++ Script.regulation_families
         ++ Script.on_off_regulation_families) st (Script.function_step f st).
Proof.
  unfold Script.function_step.
  destruct (String.eqb (mainFunction f) "on_off");
    [apply grows_recommend_all; intros x Hx; apply in_or_app; now left |].
  destruct (String.eqb (mainFunction f) "regulation");
    [apply grows_recommend_all; intros x Hx; apply in_or_app; right;
     apply in_or_app; now left |].
  destruct (String.eqb (mainFunction f) "on_off_regulation");
    [apply grows_recommend_all; intros x Hx; apply in_or_app; right;
     apply in_or_app; now right |].
  apply grows_unsuitable.
Qed.

Lemma grows_script_evaluate f : grows script_vocabulary initial (Script.evaluate f).
Proof.
  unfold Script.evaluate, script_vocabulary.
  eapply grows_trans; [eapply grows_trans |].
  - eapply grows_weaken; [| apply grows_script_function_step].
    intros x Hx. rewrite !app_assoc. do 4 (apply in_or_app; left).
    now rewrite <- app_assoc.
  - eapply grows_weaken; [| apply grows_script_material_step].
    intros x Hx. do 3 (apply in_or_app; right).
    rewrite app_assoc. apply in_or_app. now left.
  - eapply grows_weaken; [| apply grows_seal_step].
    intros x Hx. do 5 (apply in_or_app; right). exact Hx.
Qed.

Lemma not_in_by_has (l : list string) (x : string) : JS.has l x = false -> ~ In x l.
Proof. intros H Hin. apply has_In in Hin. congruence. Qed.

(** The switch of the snapshot, by cases on the material: a catalog
    material runs a quiet branch that recommends material messages only;
    anything else runs [default]. *)
Lemma snapshot_switch_by_catalog f st :
  (In (bodyBonnetMaterial f) material_catalog
   /\ quiet st (Snapshot.material_switch f st)
   /\ grows material_messages st (snd (Snapshot.material_switch f st)))
  \/ (~ In (bodyBonnetMaterial f) material_catalog
      /\ Snapshot.material_switch f st
         = (false, recommend Snapshot.select_material_prompt (unsuitable st))).
Proof.
  unfold Snapshot.material_switch, material_catalog.
  destruct (String.eqb_spec (bodyBonnetMaterial f) "cast_iron") as [E | N1].
  { left. split; [rewrite E; pick_in |]. split; [auto with steps |].
    unfold case_cast_iron. grows_branch. }
  destruct (String.eqb_spec (bodyBonnetMaterial f) "ductile_iron") as [E | N2].
  { left. split; [rewrite E; pick_in |]. split; [auto with steps |].
    unfold case_ductile_iron. grows_branch. }
  destruct (String.eqb_spec (bodyBonnetMaterial f) "carbon_steel") as [E | N3].
  { left. split; [rewrite E; pick_in |]. split; [auto with steps |].
    unfold case_carbon_steel. grows_branch. }
  destruct (String.eqb_spec (bodyBonnetMaterial f) "stainless_steel") as [E | N4].
  { left. split; [rewrite E; pick_in |]. split; [simpl; auto with steps |].
    simpl. unfold case_stainless_steel. grows_branch. }
  destruct (String.eqb_spec (bodyBonnetMaterial f) "stainless_steel_310") as [E | N5].
  { left. split; [rewrite E; pick_in |]. split; [simpl; auto with steps |].
    simpl. unfold case_stainless_steel. grows_branch. }
  simpl orb.
  destruct (String.eqb_spec (bodyBonnetMaterial f) "brass") as [E | N6].
  { left. split; [rewrite E; pick_in |]. split; [auto with steps |].
    unfold case_brass. grows_branch. }
  destruct (String.eqb_spec (bodyBonnetMaterial f) "bronze") as [E | N7].
  { left. split; [rewrite E; pick_in |]. split; [auto with steps |].
    unfold case_bronze. grows_branch. }
  destruct (String.eqb_spec (bodyBonnetMaterial f) "duplex_super_duplex") as [E | N8].
  { left. split; [rewrite E; pick_in |]. split; [auto with steps |].
    unfold case_duplex_super_duplex. grows_branch. }
  destruct (String.eqb_spec (bodyBonnetMaterial f) "plastic") as [E | N9].
  { left. split; [rewrite E; pick_in |]. split; [auto with steps |].
    unfold case_plastic. grows_branch. }
  right. split; [| reflexivity].
  simpl. intros H.
  repeat (destruct H as [H | H]; [symmetry in H; contradiction |]).
  exact H.
Qed.

Lemma grows_snapshot_material_step f st :
  grows (Snapshot.select_material_prompt :: material_messages ++ [no_material_match])
        st (Snapshot.material_step f st).
Proof.
  unfold Snapshot.material_step.
  destruct (snapshot_switch_by_catalog f st) as [[_ [_ Hg]] | [_ Hd]].
  - destruct (Snapshot.material_switch f st) as [v st']. simpl in Hg.
    apply (grows_weaken _ (Snapshot.select_material_prompt
                           :: material_messages ++ [no_material_match])) in Hg;
      [| apply incl_tl, incl_appl, incl_refl].
    destruct (negb v && negb (String.eqb (bodyBonnetMaterial f) ""));
      [| exact Hg].
    eapply grows_trans; [exact Hg |]. apply grows_reject. pick_in.
  - rewrite Hd. simpl.
    destruct (String.eqb (bodyBonnetMaterial f) ""); simpl.
    + apply grows_reject. pick_in.
    + eapply grows_trans; apply grows_reject; pick_in.
Qed.

Lemma grows_snapshot_function_step f st :
  grows (Snapshot.on_off_families ++ Snapshot.regulation_families
         ++ Snapshot.on_off_regulation_families
         ++ [Snapshot.select_function_prompt]) st (Snapshot.function_step f st).
Proof.
  unfold Snapshot.function_step.
  destruct (String.eqb (mainFunction f) "on_off");
    [apply grows_recommend_all; intros x Hx; apply in_or_app; now left |].
  destruct (String.eqb (mainFunction f) "regulation");
    [apply grows_recommend_all; intros x Hx; apply in_or_app; right;
     apply in_or_app; now left |].
  destruct (String.eqb (mainFunction f) "on_off_regulation");
    [apply grows_recommend_all; intros x Hx; apply in_or_app; right;
     apply in_or_app; right; apply in_or_app; now left |].
  apply grows_reject. pick_in.
Qed.

Lemma incl_by_has (a b : list string) :
  forallb (JS.has b) a = true -> incl a b.
Proof.
  intros H x Hx. rewrite forallb_forall in H. now apply has_In, H.
Qed.

Lemma grows_snapshot_evaluate f :
  grows snapshot_vocabulary initial (Snapshot.evaluate f).
Proof.
  unfold Snapshot.evaluate.
  eapply grows_trans; [eapply grows_trans |].
  - eapply grows_weaken; [| apply grows_snapshot_function_step].
    apply incl_by_has. vm_compute. reflexivity.
  - eapply grows_weaken; [| apply grows_snapshot_material_step].
    apply incl_by_has. vm_compute. reflexivity.
  - eapply grows_weaken; [| apply grows_seal_step].
    apply incl_by_has. vm_compute. reflexivity.
Qed.

(** ** What is listed *)

Lemma script_display_incl (st : state) :
  incl (valveList (Script.display st)) (recommendations st).
Proof.
  unfold Script.display.
  destruct ((0 <? List.length (recommendations st))%nat && suitable st);
    simpl; [apply incl_refl |].
  destruct ((List.length (recommendations st) =? 1)%nat
            && (JS.has (recommendations st) no_material_match
                || JS.has (recommendations st) no_seal_match)); simpl.
  - intros x Hx. destruct (recommendations st) as [| y l]; [destruct Hx |].
    simpl in Hx. destruct Hx as [Hx | []]. now left.
  - intros x [].
Qed.

Lemma snapshot_display_incl (st : state) :
  incl (valveList (Snapshot.display st)) (recommendations st).
Proof.
  unfold Snapshot.display.
  destruct (suitable st && (0 <? List.length (recommendations st))%nat);
    simpl; [apply incl_refl | intros x []].
Qed.

(** X1.  Whatever the fields of the form hold, the two synchronous handlers
    recommend, and list on the page, strings of their fixed vocabulary only
    (the families and the messages written in the script: the text typed
    for the fluid or the diameter is never copied to the page), and the
    recommendations hold no string twice. *)
Theorem handlers_list_fixed_strings_only (f : form) :
  (NoDup (recommendations (Script.evaluate f))
   /\ incl (recommendations (Script.evaluate f)) script_vocabulary
   /\ incl (valveList (Script.submit f)) script_vocabulary)
  /\ (NoDup (recommendations (Snapshot.evaluate f))
      /\ incl (recommendations (Snapshot.evaluate f)) snapshot_vocabulary
      /\ incl (valveList (Snapshot.submit f)) snapshot_vocabulary).
Proof.
  destruct (grows_script_evaluate f) as [N1 V1].
  destruct (grows_snapshot_evaluate f) as [N2 V2].
  assert (I1 : incl (recommendations (Script.evaluate f)) script_vocabulary).
  { intros x Hx. destruct (V1 x Hx) as [[] | H]. exact H. }
  assert (I2 : incl (recommendations (Snapshot.evaluate f)) snapshot_vocabulary).
  { intros x Hx. destruct (V2 x Hx) as [[] | H]. exact H. }
  repeat split; try assumption.
  - apply N1. constructor.
  - eapply incl_tran; [apply script_display_incl | exact I1].
  - apply N2. constructor.
  - eapply incl_tran; [apply snapshot_display_incl | exact I2].
Qed.

(** ** Rejection messages and the gates *)

(** A string that is not in a list given by its elements. *)
Ltac excluded :=
  first [ apply not_in_by_has; vm_compute; reflexivity
        | let H := fresh in intros H; simpl in H; intuition discriminate ].

Lemma script_function_step_vocabulary f x :
  In x (recommendations (Script.function_step f initial)) ->
  In x (Script.on_off_families ++ Script.regulation_families
        ++ Script.on_off_regulation_families).
Proof.
  intros H. destruct (grows_script_function_step f initial) as [_ V].
  destruct (V x H) as [[] | Hv]. exact Hv.
Qed.

Lemma script_no_material_match f :
  In no_material_match (recommendations (Script.evaluate f))
  <-> Script.materialViable f = false.
Proof.
  unfold Script.evaluate, Script.materialViable.
  set (st0 := Script.function_step f initial).
  split.
  - intros H. destruct (grows_seal_step f (Script.material_step f st0)) as [_ V].
    destruct (V _ H) as [H1 | H1]; [clear H | exfalso; revert H1; excluded].
    unfold Script.material_step in H1.
    destruct (grows_script_switch f st0) as [_ Vs].
    destruct (Script.material_switch f st0) as [[|] st']; [exfalso | reflexivity].
    simpl in *. destruct (Vs _ H1) as [H2 | H2]; [| revert H2; excluded].
    apply script_function_step_vocabulary in H2. revert H2. excluded.
  - intros Hv. eapply extends_In; [apply seal_step_extends |].
    unfold Script.material_step.
    destruct (Script.material_switch f st0) as [v st']. simpl in Hv. subst v.
    simpl. apply add_In.
Qed.

Lemma script_no_seal_match f :
  In no_seal_match (recommendations (Script.evaluate f))
  <-> String.eqb (sealSurfaceMaterial f) "" = false /\ Script.sealViable f = false.
Proof.
  unfold Script.evaluate, Script.sealViable.
  set (st0 := Script.function_step f initial).
  set (st1 := Script.material_step f st0).
  assert (Hbefore : ~ In no_seal_match (recommendations st1)).
  { intros H. destruct (grows_script_material_step f st0) as [_ V].
    destruct (V _ H) as [H1 | H1]; [| revert H1; excluded].
    apply script_function_step_vocabulary in H1. revert H1. excluded. }
  unfold seal_step.
  destruct (String.eqb (sealSurfaceMaterial f) "");
    [split; [intros H; contradiction | intros [H _]; discriminate H] |].
  destruct (grows_seal_switch f st1) as [_ V].
  destruct (seal_switch f st1) as [[|] st']; simpl in *.
  - split; [| intros [_ H]; discriminate H].
    intros H. exfalso. destruct (V _ H) as [H1 | H1]; [contradiction |].
    revert H1. excluded.
  - split; [now split | intros _; apply add_In].
Qed.

Lemma snapshot_function_step_vocabulary f x :
  In x (recommendations (Snapshot.function_step f initial)) ->
  In x (Snapshot.on_off_families ++ Snapshot.regulation_families
        ++ Snapshot.on_off_regulation_families
        ++ [Snapshot.select_function_prompt]).
Proof.
  intros H. destruct (grows_snapshot_function_step f initial) as [_ V].
  destruct (V x H) as [[] | Hv]. exact Hv.
Qed.

(** In the snapshot every rejection message comes with [suitable = false]:
    a state reached with [suitable] still true holds none of them. *)
Lemma snapshot_suitable_without_rejection f x :
  In x rejection_messages ->
  In x (recommendations (Snapshot.evaluate f)) ->
  suitable (Snapshot.evaluate f) = false.
Proof.
  intros Hx Hin. apply not_true_is_false. intros Hs.
  pose proof Hs as Hs'. rewrite snapshot_suitable in Hs'.
  apply andb_true_iff in Hs'. destruct Hs' as [Hs' Hseal].
  apply andb_true_iff in Hs'. destruct Hs' as [Hfn Hmat].
  unfold Snapshot.evaluate, Snapshot.materialViable, Snapshot.sealViable in *.
  set (st0 := Snapshot.function_step f initial) in *.
  assert (H0 : ~ In x (recommendations st0)).
  { intros H. unfold st0, Snapshot.function_step in H.
    unfold function_selected in Hfn.
    destruct (grows_recommend_all Snapshot.on_off_families
                Snapshot.on_off_families initial (incl_refl _)) as [_ V1].
    destruct (grows_recommend_all Snapshot.regulation_families
                Snapshot.regulation_families initial (incl_refl _)) as [_ V2].
    destruct (grows_recommend_all Snapshot.on_off_regulation_families
                Snapshot.on_off_regulation_families initial (incl_refl _)) as [_ V3].
    destruct (String.eqb (mainFunction f) "on_off");
      [destruct (V1 _ H) as [[] | H'] |
       destruct (String.eqb (mainFunction f) "regulation");
       [destruct (V2 _ H) as [[] | H'] |
        destruct (String.eqb (mainFunction f) "on_off_regulation");
        [destruct (V3 _ H) as [[] | H'] | discriminate Hfn]]];
      simpl in Hx, H'; intuition (subst; discriminate). }
  set (st1 := Snapshot.material_step f st0) in *.
  assert (H1 : ~ In x (recommendations st1)).
  { intros H. unfold st1, Snapshot.material_step in H.
    destruct (snapshot_switch_by_catalog f st0) as [[_ [_ [_ V]]] | [_ Hd]];
      [| rewrite Hd in Hmat; discriminate Hmat].
    destruct (Snapshot.material_switch f st0) as [v st']. simpl in *. subst v.
    simpl in H. destruct (V _ H) as [H' | H']; [contradiction |].
    simpl in Hx, H'. intuition (subst; discriminate). }
  unfold seal_step in Hin.
  destruct (String.eqb (sealSurfaceMaterial f) ""); [contradiction |].
  simpl in Hseal.
  destruct (grows_seal_switch f st1) as [_ V].
  destruct (seal_switch f st1) as [v st']. simpl in *. subst v. simpl in Hin.
  destruct (V _ Hin) as [H' | H']; [contradiction |].
  simpl in Hx, H'. intuition (subst; discriminate).
Qed.

(** X2.  In the handler of [script.js] a no-match message is recommended
    exactly when its gate failed: the one about the material when
    [materialViable] left the switch false, the one about the seal when a
    seal was chosen and [sealViable] left its switch false. *)
Theorem script_no_match_messages_tell_the_failed_gate (f : form) :
  (In no_material_match (recommendations (Script.evaluate f))
   <-> Script.materialViable f = false)
  /\ (In no_seal_match (recommendations (Script.evaluate f))
      <-> String.eqb (sealSurfaceMaterial f) "" = false
          /\ Script.sealViable f = false).
Proof. split; [apply script_no_material_match | apply script_no_seal_match]. Qed.

(** X3.  The synchronous handler of the snapshot never lists one of its
    rejection messages (the two "please select" prompts and the two
    no-match messages): it adds each of them together with
    [suitable = false], and it lists the recommendations only when
    [suitable] is true. *)
Theorem snapshot_never_lists_a_rejection_message (f : form) (x : string) :
  In x rejection_messages -> ~ In x (valveList (Snapshot.submit f)).
Proof.
  intros Hx Hin. unfold Snapshot.submit, Snapshot.display in Hin.
  destruct (suitable (Snapshot.evaluate f)) eqn:Hs; simpl in Hin;
    [| exact Hin].
  destruct (0 <? List.length (recommendations (Snapshot.evaluate f)))%nat;
    simpl in Hin; [| exact Hin].
  rewrite (snapshot_suitable_without_rejection f x Hx Hin) in Hs.
  discriminate Hs.
Qed.

Lemma snapshot_never_lists_a_rejection_message_witness :
  In Snapshot.select_material_prompt rejection_messages
  /\ In Snapshot.select_material_prompt (recommendations (Snapshot.evaluate no_material))
  /\ ~ In Snapshot.select_material_prompt (valveList (Snapshot.submit no_material)).
Proof.
  assert (Hx : In Snapshot.select_material_prompt rejection_messages) by pick_in.
  split; [exact Hx |]. split.
  - vm_compute. right. right. right. right. now left.
  - exact (snapshot_never_lists_a_rejection_message no_material _ Hx).
Defined.

(** X4.  The handler of [script.js] lists a no-match message only as the
    single item of the list, and only when no primary function was
    selected. *)
Theorem script_lists_a_no_match_message_only_alone (f : form) (x : string) :
  In x [no_material_match; no_seal_match] ->
  In x (valveList (Script.submit f)) ->
  function_selected f = false
  /\ Script.submit f = {| valveList := [x]; noResultsMessage := false |}.
Proof.
  intros Hx Hin. unfold Script.submit, Script.display in *.
  destruct (suitable (Script.evaluate f)) eqn:Hs.
  - exfalso. rewrite andb_true_r in Hin.
    assert (Hr : In x (recommendations (Script.evaluate f))).
    { destruct (0 <? List.length (recommendations (Script.evaluate f)))%nat;
        simpl in Hin; [exact Hin |].
      destruct ((List.length (recommendations (Script.evaluate f)) =? 1)%nat
                && _); simpl in Hin; [| destruct Hin].
      destruct (recommendations (Script.evaluate f)); simpl in Hin;
        [destruct Hin | destruct Hin as [Hin | []]; now left]. }
    rewrite script_suitable in Hs.
    apply andb_true_iff in Hs. destruct Hs as [Hs Hseal].
    apply andb_true_iff in Hs. destruct Hs as [_ Hmat].
    destruct Hx as [Hx | [Hx | []]]; subst x.
    + apply script_no_material_match in Hr. congruence.
    + apply script_no_seal_match in Hr. destruct Hr as [H1 H2].
      rewrite H1, H2 in Hseal. discriminate Hseal.
  - rewrite andb_false_r in *.
    destruct ((List.length (recommendations (Script.evaluate f)) =? 1)%nat) eqn:Hl;
      simpl in Hin; [| destruct Hin].
    apply Nat.eqb_eq in Hl.
    destruct (JS.has (recommendations (Script.evaluate f)) no_material_match
              || JS.has (recommendations (Script.evaluate f)) no_seal_match);
      simpl in Hin; [| destruct Hin].
    split.
    + apply not_true_is_false. intros Hf.
      destruct (script_function_step_families f Hf) as [Hfam Hlen].
      destruct (script_evaluate_extends f) as [rest Hrest].
      rewrite Hrest, Hfam, length_app in Hl. lia.
    + simpl. destruct (recommendations (Script.evaluate f)) as [| y [| z l]];
        try discriminate Hl.
      simpl in Hin. destruct Hin as [Hin | []]. now subst y.
Qed.

Lemma script_lists_a_no_match_message_only_alone_witness :
  In no_material_match [no_material_match; no_seal_match]
  /\ In no_material_match
        (valveList (Script.submit (request "" "cast_iron" "" 300 5 "" "")))
  /\ Script.submit (request "" "cast_iron" "" 300 5 "" "")
     = {| valveList := [no_material_match]; noResultsMessage := false |}.
Proof.
  assert (H1 : In no_material_match [no_material_match; no_seal_match])
    by now left.
  assert (H2 : In no_material_match
                  (valveList (Script.submit (request "" "cast_iron" "" 300 5 "" ""))))
    by (vm_compute; now left).
  split; [exact H1 |]. split; [exact H2 |].
  exact (proj2 (script_lists_a_no_match_message_only_alone _ _ H1 H2)).
Defined.

(** ** The verdict on the material *)

(** Splits on every comparison and every substring test of the goal. *)
Ltac atoms :=
  repeat match goal with
  | |- context [JS.Qleb ?a ?b] =>
      let E := fresh "E" in destruct (JS.Qleb a b) eqn:E
  | |- context [JS.Qgeb ?a ?b] =>
      let E := fresh "E" in destruct (JS.Qgeb a b) eqn:E
  | |- context [JS.Qgtb ?a ?b] =>
      let E := fresh "E" in destruct (JS.Qgtb a b) eqn:E
  | |- context [JS.Qltb ?a ?b] =>
      let E := fresh "E" in destruct (JS.Qltb a b) eqn:E
  | |- context [JS.includes ?a ?b] =>
      let E := fresh "E" in destruct (JS.includes a b) eqn:E
  end.

(** The verdict of a switch does not depend on what was recommended
    before it. *)
Lemma script_verdict_any_state f st st' :
  fst (Script.material_switch f st) = fst (Script.material_switch f st').
Proof.
  unfold Script.material_switch, case_cast_iron, case_ductile_iron,
    case_carbon_steel, case_stainless_steel, Script.case_stainless_steel_310,
    case_brass, case_bronze, case_duplex_super_duplex, case_plastic.
  repeat match goal with
  | |- context [if ?b then _ else _] => destruct b
  end; reflexivity.
Qed.

Lemma snapshot_verdict_any_state f st st' :
  fst (Snapshot.material_switch f st) = fst (Snapshot.material_switch f st').
Proof.
  unfold Snapshot.material_switch, case_cast_iron, case_ductile_iron,
    case_carbon_steel, case_stainless_steel,
    case_brass, case_bronze, case_duplex_super_duplex, case_plastic.
  repeat match goal with
  | |- context [if ?b then _ else _] => destruct b
  end; reflexivity.
Qed.

Lemma seal_verdict_any_state f st st' :
  fst (seal_switch f st) = fst (seal_switch f st').
Proof.
  unfold seal_switch.
  repeat match goal with
  | |- context [if ?b then _ else _] => destruct b
  end; reflexivity.
Qed.

Lemma script_ductile_iron f st :
  bodyBonnetMaterial f = "ductile_iron" ->
  Script.material_switch f st = case_ductile_iron f false st.
Proof. intros E. unfold Script.material_switch. rewrite E. reflexivity. Qed.

Lemma script_carbon_steel f st :
  bodyBonnetMaterial f = "carbon_steel" ->
  Script.material_switch f st = case_carbon_steel f false st.
Proof. intros E. unfold Script.material_switch. rewrite E. reflexivity. Qed.

Lemma script_stainless_steel f st :
  bodyBonnetMaterial f = "stainless_steel" ->
  Script.material_switch f st = case_stainless_steel f false st.
Proof. intros E. unfold Script.material_switch. rewrite E. reflexivity. Qed.

Lemma script_plastic f st :
  bodyBonnetMaterial f = "plastic" ->
  Script.material_switch f st = case_plastic f false st.
Proof. intros E. unfold Script.material_switch. rewrite E. reflexivity. Qed.

Lemma Qgeb_false (a b : Q) : JS.Qgeb a b = false <-> a < b.
Proof. unfold JS.Qgeb. apply (Qleb_false b a). Qed.

(** Closes a goal about a branch whose tests have been split into cases. *)
Ltac by_ranges :=
  simpl;
  repeat match goal with
  | H : JS.Qgeb _ _ = false |- _ => apply Qgeb_false in H
  end;
  to_Q; intuition (try congruence; try lra).

Lemma ductile_iron_range f st :
  bodyBonnetMaterial f = "ductile_iron" ->
  (fst (Script.material_switch f st) = true
   <-> temperature f <= 350 /\ pressure f <= 25)
  /\ snd (Script.material_switch f st) = st.
Proof.
  intros E. rewrite (script_ductile_iron f st E). unfold case_ductile_iron.
  atoms; by_ranges.
Qed.

Lemma carbon_steel_range f st :
  bodyBonnetMaterial f = "carbon_steel" ->
  (fst (Script.material_switch f st) = true
   <-> -20 <= temperature f /\ temperature f <= 425 /\ pressure f <= 400)
  /\ snd (Script.material_switch f st) = st.
Proof.
  intros E. rewrite (script_carbon_steel f st E). unfold case_carbon_steel.
  atoms; by_ranges.
Qed.

Lemma stainless_steel_range f st :
  bodyBonnetMaterial f = "stainless_steel" ->
  (fst (Script.material_switch f st) = true
   <-> -200 <= temperature f /\ temperature f <= 420 /\ pressure f <= 400)
  /\ snd (Script.material_switch f st) = st.
Proof.
  intros E. rewrite (script_stainless_steel f st E). unfold case_stainless_steel.
  atoms; by_ranges.
Qed.

Lemma plastic_range f st :
  bodyBonnetMaterial f = "plastic" ->
  (fst (Script.material_switch f st) = true
   <-> temperature f <= 60 /\ pressure f <= 16)
  /\ snd (Script.material_switch f st) = st.
Proof.
  intros E. rewrite (script_plastic f st E). unfold case_plastic.
  atoms; by_ranges.
Qed.

(** X5.  The four materials with a plain range, in both synchronous
    handlers: ductile iron is viable exactly up to 350 degrees and 25 bar,
    carbon steel from -20 to 425 degrees up to 400 bar, stainless steel
    (304-316) from -200 to 420 degrees up to 400 bar, plastic up to 60
    degrees and 16 bar, all bounds included; their branches recommend
    nothing. *)
Theorem plain_range_materials (f : form) (st : state) :
  (bodyBonnetMaterial f = "ductile_iron" ->
   (fst (Script.material_switch f st) = true
    <-> temperature f <= 350 /\ pressure f <= 25)
   /\ snd (Script.material_switch f st) = st
   /\ Snapshot.material_switch f st = Script.material_switch f st)
  /\ (bodyBonnetMaterial f = "carbon_steel" ->
      (fst (Script.material_switch f st) = true
       <-> -20 <= temperature f /\ temperature f <= 425 /\ pressure f <= 400)
      /\ snd (Script.material_switch f st) = st
      /\ Snapshot.material_switch f st = Script.material_switch f st)
  /\ (bodyBonnetMaterial f = "stainless_steel" ->
      (fst (Script.material_switch f st) = true
       <-> -200 <= temperature f /\ temperature f <= 420 /\ pressure f <= 400)
      /\ snd (Script.material_switch f st) = st
      /\ Snapshot.material_switch f st = Script.material_switch f st)
  /\ (bodyBonnetMaterial f = "plastic" ->
      (fst (Script.material_switch f st) = true
       <-> temperature f <= 60 /\ pressure f <= 16)
      /\ snd (Script.material_switch f st) = st
      /\ Snapshot.material_switch f st = Script.material_switch f st).
Proof.
  assert (Hagree : forall m, bodyBonnetMaterial f = m ->
            In m ["ductile_iron"; "carbon_steel"; "stainless_steel"; "plastic"] ->
            Snapshot.material_switch f st = Script.material_switch f st).
  { intros m E Hm. apply snapshot_switch_agrees. rewrite E.
    simpl in Hm. simpl. tauto. }
  split; [| split; [| split]]; intros E.
  - destruct (ductile_iron_range f st E) as [Hv Hs].
    split; [exact Hv |]. split; [exact Hs |]. apply (Hagree _ E). pick_in.
  - destruct (carbon_steel_range f st E) as [Hv Hs].
    split; [exact Hv |]. split; [exact Hs |]. apply (Hagree _ E). pick_in.
  - destruct (stainless_steel_range f st E) as [Hv Hs].
    split; [exact Hv |]. split; [exact Hs |]. apply (Hagree _ E). pick_in.
  - destruct (plastic_range f st E) as [Hv Hs].
    split; [exact Hv |]. split; [exact Hs |]. apply (Hagree _ E). pick_in.
Qed.

Lemma script_pressure_monotone f p' st :
  p' <= pressure f ->
  fst (Script.material_switch f st) = true ->
  fst (Script.material_switch (with_pressure f p') st) = true.
Proof.
  intros Hp. unfold Script.material_switch.
  cbn [bodyBonnetMaterial with_pressure].
  repeat match goal with
  | |- context [if String.eqb ?a ?b then _ else _] => destruct (String.eqb a b)
  end;
  rewrite ?brass_verdict, ?bronze_verdict;
  unfold case_cast_iron, case_ductile_iron, case_carbon_steel,
    case_stainless_steel, Script.case_stainless_steel_310,
    case_duplex_super_duplex, case_plastic;
  cbn [temperature pressure fluidType with_pressure]; atoms; by_ranges.
Qed.

Lemma snapshot_pressure_monotone f p' st :
  p' <= pressure f ->
  fst (Snapshot.material_switch f st) = true ->
  fst (Snapshot.material_switch (with_pressure f p') st) = true.
Proof.
  intros Hp. unfold Snapshot.material_switch.
  cbn [bodyBonnetMaterial with_pressure].
  repeat match goal with
  | |- context [if String.eqb ?a ?b then _ else _] => destruct (String.eqb a b)
  | |- context [if String.eqb ?a ?b || _ then _ else _] =>
      destruct (String.eqb a b); simpl orb
  end;
  rewrite ?brass_verdict, ?bronze_verdict;
  unfold case_cast_iron, case_ductile_iron, case_carbon_steel,
    case_stainless_steel, case_duplex_super_duplex, case_plastic;
  cbn [temperature pressure fluidType with_pressure]; atoms; by_ranges.
Qed.

(** X6.  For every material, fluid, diameter and temperature, a material
    that is viable at some pressure is viable at every lower pressure, in
    both synchronous handlers. *)
Theorem viability_is_downward_closed_in_pressure (f : form) (p' : Q) (st : state) :
  p' <= pressure f ->
  (fst (Script.material_switch f st) = true ->
   fst (Script.material_switch (with_pressure f p') st) = true)
  /\ (fst (Snapshot.material_switch f st) = true ->
      fst (Snapshot.material_switch (with_pressure f p') st) = true).
Proof.
  intros Hp. split;
    [now apply script_pressure_monotone | now apply snapshot_pressure_monotone].
Qed.

Lemma viability_is_downward_closed_in_pressure_witness :
  2 <= pressure (cast_iron_at 150 12 "water")
  /\ fst (Script.material_switch (cast_iron_at 150 12 "water") initial) = true
  /\ fst (Script.material_switch
            (with_pressure (cast_iron_at 150 12 "water") 2) initial) = true.
Proof.
  assert (Hp : 2 <= pressure (cast_iron_at 150 12 "water")) by discriminate.
  assert (Hv : fst (Script.material_switch (cast_iron_at 150 12 "water") initial)
               = true) by reflexivity.
  split; [exact Hp |]. split; [exact Hv |].
  exact (proj1 (viability_is_downward_closed_in_pressure _ 2 initial Hp) Hv).
Defined.

(** The material of a request whose switch runs one of the nine named
    branches, or the default. *)
Lemma script_switch_by_catalog f st :
  ~ In (bodyBonnetMaterial f) material_catalog ->
  Script.material_switch f st = (true, st).
Proof.
  intros Hn. unfold Script.material_switch.
  repeat match goal with
  | |- context [if String.eqb ?a ?b then _ else _] =>
      destruct (String.eqb_spec a b) as [E | _];
      [exfalso; apply Hn; rewrite E; pick_in |]
  end.
  reflexivity.
Qed.

(** X7.  Above the ranges only duplex is left: in the handler of
    [script.js] a catalog material that is viable above 550 degrees is
    duplex / super duplex; in the snapshot a material that is viable above
    425 degrees, or above 400 bar, is duplex / super duplex. *)
Theorem only_duplex_is_viable_above_the_ranges (f : form) (st : state) :
  (550 < temperature f ->
   In (bodyBonnetMaterial f) material_catalog ->
   fst (Script.material_switch f st) = true ->
   bodyBonnetMaterial f = "duplex_super_duplex")
  /\ (425 < temperature f \/ 400 < pressure f ->
      fst (Snapshot.material_switch f st) = true ->
      bodyBonnetMaterial f = "duplex_super_duplex").
Proof.
  split.
  - intros Ht Hin. unfold Script.material_switch.
    repeat match goal with
    | |- context [if String.eqb ?a ?b then _ else _] =>
        let N := fresh "N" in destruct (String.eqb_spec a b) as [E | N]
    end; try (intros _; exact E);
    rewrite ?brass_verdict, ?bronze_verdict;
    unfold case_cast_iron, case_ductile_iron, case_carbon_steel,
      case_stainless_steel, Script.case_stainless_steel_310, case_plastic;
    try solve [atoms; by_ranges].
    intros _. exfalso. simpl in Hin.
    repeat (destruct Hin as [Hin | Hin]; [symmetry in Hin; contradiction |]).
    exact Hin.
  - intros Ht. unfold Snapshot.material_switch.
    destruct (String.eqb (bodyBonnetMaterial f) "stainless_steel");
      destruct (String.eqb (bodyBonnetMaterial f) "stainless_steel_310");
      simpl orb;
    repeat match goal with
    | |- context [if String.eqb ?a ?b then _ else _] =>
        let E := fresh "E" in let N := fresh "N" in
        destruct (String.eqb_spec a b) as [E | N]
    end; try (intros _; assumption);
    rewrite ?brass_verdict, ?bronze_verdict;
    unfold case_cast_iron, case_ductile_iron, case_carbon_steel,
      case_stainless_steel, case_plastic;
    solve [atoms; by_ranges].
Qed.

Lemma add_keeps (x y : string) (s : list string) : In y s -> In y (JS.add x s).
Proof.
  intros H. destruct (add_extends x s) as [t Ht]. rewrite Ht.
  apply in_or_app. now left.
Qed.

(** X8.  For brass and for bronze the verdict is the one of the range
    check, at most 100 degrees and at most 64 bar, whatever the diameter
    and the fluid say; the size test and the chemical test of the branch
    add their warnings and leave the verdict to the range check. *)
Theorem copper_alloy_verdict_is_the_range_check (f : form) (st : state) :
  (bodyBonnetMaterial f = "brass" ->
   (fst (Script.material_switch f st) = true
    <-> temperature f <= 100 /\ pressure f <= 64)
   /\ (over_dn100 f = true ->
       In brass_size_warning (recommendations (snd (Script.material_switch f st))))
   /\ (chemically_aggressive f = true ->
       In brass_chemical_warning
          (recommendations (snd (Script.material_switch f st)))))
  /\ (bodyBonnetMaterial f = "bronze" ->
      (fst (Script.material_switch f st) = true
       <-> temperature f <= 100 /\ pressure f <= 64)
      /\ (chemically_aggressive f = true ->
          In bronze_chemical_warning
             (recommendations (snd (Script.material_switch f st))))).
Proof.
  split; intros E.
  - rewrite (script_brass f st E). rewrite brass_verdict. split; [| split].
    + atoms; by_ranges.
    + intros Ho. unfold case_brass. rewrite Ho.
      destruct (chemically_aggressive f);
        destruct (JS.Qleb (temperature f) 100 && JS.Qleb (pressure f) 64);
        cbn [snd recommendations recommend].
      * exact (add_keeps _ _ _ (add_In _ _)).
      * exact (add_keeps _ _ _ (add_In _ _)).
      * exact (add_In _ _).
      * exact (add_In _ _).
    + intros Hc. unfold case_brass. rewrite Hc.
      destruct (over_dn100 f),
        (JS.Qleb (temperature f) 100 && JS.Qleb (pressure f) 64);
        cbn [snd recommendations recommend]; exact (add_In _ _).
  - rewrite (script_bronze f st E). rewrite bronze_verdict. split.
    + atoms; by_ranges.
    + intros Hc. unfold case_bronze. rewrite Hc.
      destruct (JS.Qleb (temperature f) 100 && JS.Qleb (pressure f) 64);
        cbn [snd recommendations recommend]; exact (add_In _ _).
Qed.

(** ** The seal *)

Lemma seal_elastomer f st :
  sealSurfaceMaterial f = "elastomer" ->
  fst (seal_switch f st)
  = JS.Qleb (temperature f) 120 && negb (JS.includes (fluidType f) "abrasive")
    && negb (JS.includes (fluidType f) "corrosive").
Proof.
  intros E. unfold seal_switch. rewrite E.
  change (String.eqb "elastomer" "elastomer") with true. cbv iota.
  destruct (JS.Qleb (temperature f) 120
            && negb (JS.includes (fluidType f) "abrasive")
            && negb (JS.includes (fluidType f) "corrosive"));
    destruct (JS.includes (fluidType f) "abrasive"
              || JS.includes (fluidType f) "corrosive"); reflexivity.
Qed.

Lemma seal_ptfe f st :
  sealSurfaceMaterial f = "ptfe" ->
  fst (seal_switch f st)
  = JS.Qleb (temperature f) 200 && negb (JS.includes (fluidType f) "nuclear").
Proof.
  intros E. unfold seal_switch. rewrite E.
  change (String.eqb "ptfe" "elastomer") with false.
  change (String.eqb "ptfe" "ptfe") with true. cbv iota.
  destruct (JS.Qleb (temperature f) 200
            && negb (JS.includes (fluidType f) "nuclear"));
    destruct (JS.includes (fluidType f) "nuclear"); reflexivity.
Qed.

Lemma seal_rubber f st :
  sealSurfaceMaterial f = "rubber_seal" ->
  seal_switch f st = (JS.Qleb (temperature f) 130, st).
Proof.
  intros E. unfold seal_switch. rewrite E.
  change (String.eqb "rubber_seal" "elastomer") with false.
  change (String.eqb "rubber_seal" "ptfe") with false.
  change (String.eqb "rubber_seal" "rubber_seal") with true. cbv iota.
  destruct (JS.Qleb (temperature f) 130); reflexivity.
Qed.

Lemma seal_copper_alloys f st :
  sealSurfaceMaterial f = "copper_alloys" ->
  seal_switch f st
  = (JS.Qleb (temperature f) 200 && JS.Qleb (pressure f) 16, st).
Proof.
  intros E. unfold seal_switch. rewrite E.
  change (String.eqb "copper_alloys" "elastomer") with false.
  change (String.eqb "copper_alloys" "ptfe") with false.
  change (String.eqb "copper_alloys" "rubber_seal") with false.
  change (String.eqb "copper_alloys" "copper_alloys") with true. cbv iota.
  destruct (JS.Qleb (temperature f) 200 && JS.Qleb (pressure f) 16); reflexivity.
Qed.

Lemma seal_stainless_steel f st :
  sealSurfaceMaterial f = "stainless_steel_seal" ->
  seal_switch f st = (JS.Qgeb (temperature f) 420, st).
Proof.
  intros E. unfold seal_switch. rewrite E.
  change (String.eqb "stainless_steel_seal" "elastomer") with false.
  change (String.eqb "stainless_steel_seal" "ptfe") with false.
  change (String.eqb "stainless_steel_seal" "rubber_seal") with false.
  change (String.eqb "stainless_steel_seal" "copper_alloys") with false.
  change (String.eqb "stainless_steel_seal" "stainless_steel_seal") with true.
  cbv iota.
  destruct (JS.Qgeb (temperature f) 420); reflexivity.
Qed.

Lemma seal_stellite f st :
  sealSurfaceMaterial f = "stellite" ->
  seal_switch f st = (true, recommend stellite_note st).
Proof. intros E. unfold seal_switch. rewrite E. reflexivity. Qed.

Lemma seal_unknown f st :
  ~ In (sealSurfaceMaterial f) seal_catalog -> seal_switch f st = (false, st).
Proof.
  intros Hn. unfold seal_switch.
  repeat match goal with
  | |- context [if String.eqb ?a ?b then _ else _] =>
      destruct (String.eqb_spec a b) as [E | _];
      [exfalso; apply Hn; rewrite E; pick_in |]
  end.
  reflexivity.
Qed.

(** X9.  The verdict of the seal switch, seal by seal: elastomer is viable
    exactly up to 120 degrees in a fluid that is neither abrasive nor
    corrosive; PTFE up to 200 degrees in a fluid that is not nuclear; the
    rubber seal up to 130 degrees; copper alloys up to 200 degrees and 16
    bar; the stainless steel seal from 420 degrees upwards; stellite
    always.  Any other value of the field, which the switch has no case
    for, is not viable. *)
Theorem seal_verdicts (f : form) (st : state) :
  (sealSurfaceMaterial f = "elastomer" ->
   (fst (seal_switch f st) = true
    <-> temperature f <= 120
        /\ JS.includes (fluidType f) "abrasive" = false
        /\ JS.includes (fluidType f) "corrosive" = false))
  /\ (sealSurfaceMaterial f = "ptfe" ->
      (fst (seal_switch f st) = true
       <-> temperature f <= 200 /\ JS.includes (fluidType f) "nuclear" = false))
  /\ (sealSurfaceMaterial f = "rubber_seal" ->
      (fst (seal_switch f st) = true <-> temperature f <= 130))
  /\ (sealSurfaceMaterial f = "copper_alloys" ->
      (fst (seal_switch f st) = true
       <-> temperature f <= 200 /\ pressure f <= 16))
  /\ (sealSurfaceMaterial f = "stainless_steel_seal" ->
      (fst (seal_switch f st) = true <-> 420 <= temperature f))
  /\ (sealSurfaceMaterial f = "stellite" -> fst (seal_switch f st) = true)
  /\ (~ In (sealSurfaceMaterial f) seal_catalog ->
      seal_switch f st = (false, st)).
Proof.
  split; [| split; [| split; [| split; [| split; [| split]]]]]; intros E.
  - rewrite (seal_elastomer f st E). atoms; by_ranges.
  - rewrite (seal_ptfe f st E). atoms; by_ranges.
  - rewrite (seal_rubber f st E). atoms; by_ranges.
  - rewrite (seal_copper_alloys f st E). atoms; by_ranges.
  - rewrite (seal_stainless_steel f st E). atoms; by_ranges.
  - now rewrite (seal_stellite f st E).
  - now apply seal_unknown.
Qed.

(** The three gates behind a request that ends suitable. *)
Lemma script_suitable_gates f :
  suitable (Script.evaluate f) = true ->
  function_selected f = true
  /\ Script.materialViable f = true
  /\ (String.eqb (sealSurfaceMaterial f) "" = true \/ Script.sealViable f = true).
Proof.
  rewrite script_suitable. intros H.
  apply andb_true_iff in H. destruct H as [H Hs].
  apply andb_true_iff in H. destruct H as [Hf Hm].
  apply orb_true_iff in Hs. auto.
Qed.

Lemma snapshot_suitable_gates f :
  suitable (Snapshot.evaluate f) = true ->
  function_selected f = true
  /\ Snapshot.materialViable f = true
  /\ (String.eqb (sealSurfaceMaterial f) "" = true \/ Snapshot.sealViable f = true).
Proof.
  rewrite snapshot_suitable. intros H.
  apply andb_true_iff in H. destruct H as [H Hs].
  apply andb_true_iff in H. destruct H as [Hf Hm].
  apply orb_true_iff in Hs. auto.
Qed.

(** A seal that is chosen and not viable: the request is rejected with the
    seal's no-match message, after whatever the seal switch recommended. *)
Lemma seal_step_rejects f st :
  String.eqb (sealSurfaceMaterial f) "" = false ->
  fst (seal_switch f st) = false ->
  seal_step f st = recommend no_seal_match (unsuitable (snd (seal_switch f st))).
Proof.
  intros Hs Hv. unfold seal_step. rewrite Hs.
  destruct (seal_switch f st) as [v st']. simpl in Hv. subst v. reflexivity.
Qed.

Lemma seal_elastomer_warns f st :
  sealSurfaceMaterial f = "elastomer" ->
  JS.includes (fluidType f) "abrasive" || JS.includes (fluidType f) "corrosive" = true ->
  snd (seal_switch f st) = recommend elastomer_warning st.
Proof.
  intros E H. unfold seal_switch. rewrite E.
  change (String.eqb "elastomer" "elastomer") with true. cbv iota.
  rewrite H. reflexivity.
Qed.

Lemma seal_ptfe_warns f st :
  sealSurfaceMaterial f = "ptfe" ->
  JS.includes (fluidType f) "nuclear" = true ->
  snd (seal_switch f st) = recommend ptfe_warning st.
Proof.
  intros E H. unfold seal_switch. rewrite E.
  change (String.eqb "ptfe" "elastomer") with false.
  change (String.eqb "ptfe" "ptfe") with true. cbv iota.
  rewrite H. reflexivity.
Qed.

(** What a failed seal does to a state, whatever came before. *)
Lemma failed_seal f st w :
  String.eqb (sealSurfaceMaterial f) "" = false ->
  fst (seal_switch f st) = false ->
  (snd (seal_switch f st) = st \/ snd (seal_switch f st) = recommend w st) ->
  suitable (seal_step f st) = false
  /\ In no_seal_match (recommendations (seal_step f st))
  /\ (snd (seal_switch f st) = recommend w st ->
      In w (recommendations (seal_step f st))).
Proof.
  intros Hs Hv Hw. rewrite (seal_step_rejects f st Hs Hv).
  split; [reflexivity |]. split.
  - cbn [recommendations recommend unsuitable]. exact (add_In _ _).
  - intros E. rewrite E. cbn [recommendations recommend unsuitable].
    exact (add_keeps _ _ _ (add_In _ _)).
Qed.

(** X10.  A seal the rules turn down rejects the whole request, in both
    synchronous handlers and whatever the other fields hold: a value of the
    seal field that is not one of the six the switch names (and is not
    empty), an elastomer seal in an abrasive or corrosive fluid, a PTFE seal
    in a nuclear fluid.  The request ends unsuitable, the seal's no-match
    message is recommended, and so is the warning of the seal if it has
    one. *)
Theorem a_seal_turned_down_rejects_the_request (f : form) :
  (String.eqb (sealSurfaceMaterial f) "" = false ->
   ~ In (sealSurfaceMaterial f) seal_catalog ->
   (suitable (Script.evaluate f) = false
    /\ In no_seal_match (recommendations (Script.evaluate f)))
   /\ (suitable (Snapshot.evaluate f) = false
       /\ In no_seal_match (recommendations (Snapshot.evaluate f))))
  /\ (sealSurfaceMaterial f = "elastomer" ->
      JS.includes (fluidType f) "abrasive" || JS.includes (fluidType f) "corrosive"
      = true ->
      (suitable (Script.evaluate f) = false
       /\ In elastomer_warning (recommendations (Script.evaluate f)))
      /\ (suitable (Snapshot.evaluate f) = false
          /\ In elastomer_warning (recommendations (Snapshot.evaluate f))))
  /\ (sealSurfaceMaterial f = "ptfe" ->
      JS.includes (fluidType f) "nuclear" = true ->
      (suitable (Script.evaluate f) = false
       /\ In ptfe_warning (recommendations (Script.evaluate f)))
      /\ (suitable (Snapshot.evaluate f) = false
          /\ In ptfe_warning (recommendations (Snapshot.evaluate f)))).
Proof.
  unfold Script.evaluate, Snapshot.evaluate.
  set (s1 := Script.material_step f (Script.function_step f initial)).
  set (s2 := Snapshot.material_step f (Snapshot.function_step f initial)).
  split; [| split].
  - intros Hs Hn.
    assert (H : forall st, suitable (seal_step f st) = false
                           /\ In no_seal_match (recommendations (seal_step f st))).
    { intros st. pose proof (seal_unknown f st Hn) as Hu.
      destruct (failed_seal f st no_seal_match Hs) as [H1 [H2 _]];
        try rewrite Hu; auto. }
    split; apply H.
  - intros E Hw.
    assert (Hs : String.eqb (sealSurfaceMaterial f) "" = false)
      by (rewrite E; reflexivity).
    assert (H : forall st, suitable (seal_step f st) = false
                           /\ In elastomer_warning (recommendations (seal_step f st))).
    { intros st.
      assert (Hv : fst (seal_switch f st) = false).
      { rewrite (seal_elastomer f st E).
        apply orb_true_iff in Hw.
        destruct Hw as [Hw | Hw]; rewrite Hw; simpl;
          now rewrite ?andb_false_r. }
      pose proof (seal_elastomer_warns f st E Hw) as Hr.
      destruct (failed_seal f st elastomer_warning Hs Hv) as [H1 [_ H3]]; auto. }
    split; apply H.
  - intros E Hw.
    assert (Hs : String.eqb (sealSurfaceMaterial f) "" = false)
      by (rewrite E; reflexivity).
    assert (H : forall st, suitable (seal_step f st) = false
                           /\ In ptfe_warning (recommendations (seal_step f st))).
    { intros st.
      assert (Hv : fst (seal_switch f st) = false).
      { rewrite (seal_ptfe f st E), Hw. apply andb_false_r. }
      pose proof (seal_ptfe_warns f st E Hw) as Hr.
      destruct (failed_seal f st ptfe_warning Hs Hv) as [H1 [_ H3]]; auto. }
    split; apply H.
Qed.

(** ** Seal and body together *)

(** Picks, in two switches on the same material, the branch of each. *)
Ltac same_material :=
  repeat match goal with
  | |- context [String.eqb ?a ?b] =>
      destruct (String.eqb a b); cbn [orb]; cbv iota
  end.

(** In [script.js] a catalog material that is viable while the temperature
    is at least 420 degrees is one of the four that go that far. *)
Lemma script_viable_from_420 f st :
  420 <= temperature f ->
  fst (Script.material_switch f st) = true ->
  ~ In (bodyBonnetMaterial f) ["cast_iron"; "ductile_iron"; "brass"; "bronze"; "plastic"]
  /\ (bodyBonnetMaterial f = "stainless_steel" -> temperature f == 420).
Proof.
  intros Ht. unfold Script.material_switch.
  repeat match goal with
  | |- context [if String.eqb ?a ?b then _ else _] =>
      let E := fresh "E" in let N := fresh "N" in
      destruct (String.eqb_spec a b) as [E | N]
  end;
  rewrite ?brass_verdict, ?bronze_verdict;
  unfold case_cast_iron, case_ductile_iron, case_carbon_steel,
    case_stainless_steel, Script.case_stainless_steel_310,
    case_duplex_super_duplex, case_plastic;
  try solve [atoms; by_ranges];
  intros Hv;
  (split;
   [ intros Hin; simpl in Hin;
     repeat (destruct Hin as [Hin | Hin]; [congruence |]); exact Hin
   | intros Hm; congruence ]).
Qed.

Lemma snapshot_viable_from_420 f st :
  420 <= temperature f ->
  fst (Snapshot.material_switch f st) = true ->
  ~ In (bodyBonnetMaterial f) ["cast_iron"; "ductile_iron"; "brass"; "bronze"; "plastic"]
  /\ (In (bodyBonnetMaterial f) ["stainless_steel"; "stainless_steel_310"] ->
      temperature f == 420).
Proof.
  intros Ht Hv.
  destruct (snapshot_switch_by_catalog f st) as [[Hc _] | [_ Hd]];
    [| rewrite Hd in Hv; discriminate Hv].
  assert (Hagree : bodyBonnetMaterial f <> "stainless_steel_310" ->
                   fst (Script.material_switch f st) = true).
  { intros Hn. rewrite <- (snapshot_switch_agrees f st); [exact Hv |].
    simpl in Hc. simpl. intuition congruence. }
  split.
  - intros Hin.
    assert (Hn : bodyBonnetMaterial f <> "stainless_steel_310")
      by (simpl in Hin; intuition congruence).
    destruct (script_viable_from_420 f st Ht (Hagree Hn)) as [H _]. now apply H.
  - intros [E | [E | []]].
    + assert (Hn : bodyBonnetMaterial f <> "stainless_steel_310") by congruence.
      destruct (script_viable_from_420 f st Ht (Hagree Hn)) as [_ H].
      now apply H.
    + rewrite (snapshot_stainless_steel_310 f st (eq_sym E)) in Hv.
      unfold case_stainless_steel in Hv. revert Hv.
      atoms; simpl; intros; try discriminate; to_Q.
      apply Qle_antisym; assumption.
Qed.

(** X11.  With the stainless steel seal, which needs at least 420
    degrees, a body in cast iron, ductile iron, brass, bronze or plastic
    never gives a suitable request, in either synchronous handler; and a
    body in stainless steel 304-316 (in the snapshot, also in stainless
    steel 310) gives one at 420 degrees only. *)
Theorem stainless_steel_seal_leaves_out_the_cooler_bodies (f : form) :
  sealSurfaceMaterial f = "stainless_steel_seal" ->
  (In (bodyBonnetMaterial f) ["cast_iron"; "ductile_iron"; "brass"; "bronze"; "plastic"] ->
   suitable (Script.evaluate f) = false /\ suitable (Snapshot.evaluate f) = false)
  /\ (bodyBonnetMaterial f = "stainless_steel" ->
      suitable (Script.evaluate f) = true -> temperature f == 420)
  /\ (In (bodyBonnetMaterial f) ["stainless_steel"; "stainless_steel_310"] ->
      suitable (Snapshot.evaluate f) = true -> temperature f == 420).
Proof.
  intros E.
  assert (H1 : suitable (Script.evaluate f) = true ->
               420 <= temperature f /\ Script.materialViable f = true).
  { intros Hs. destruct (script_suitable_gates f Hs) as [_ [Hm [Hn | Hv]]].
    - rewrite E in Hn. discriminate Hn.
    - split; [| exact Hm]. unfold Script.sealViable in Hv.
      rewrite (seal_stainless_steel f _ E) in Hv. now apply Qgeb_true in Hv. }
  assert (H2 : suitable (Snapshot.evaluate f) = true ->
               420 <= temperature f /\ Snapshot.materialViable f = true).
  { intros Hs. destruct (snapshot_suitable_gates f Hs) as [_ [Hm [Hn | Hv]]].
    - rewrite E in Hn. discriminate Hn.
    - split; [| exact Hm]. unfold Snapshot.sealViable in Hv.
      rewrite (seal_stainless_steel f _ E) in Hv. now apply Qgeb_true in Hv. }
  split; [| split].
  - intros Hin. split; apply not_true_is_false; intros Hs.
    + destruct (H1 Hs) as [Ht Hm].
      destruct (script_viable_from_420 f _ Ht Hm) as [Hn _]. now apply Hn.
    + destruct (H2 Hs) as [Ht Hm].
      destruct (snapshot_viable_from_420 f _ Ht Hm) as [Hn _]. now apply Hn.
  - intros Em Hs. destruct (H1 Hs) as [Ht Hm].
    destruct (script_viable_from_420 f _ Ht Hm) as [_ Hq]. now apply Hq.
  - intros Hin Hs. destruct (H2 Hs) as [Ht Hm].
    destruct (snapshot_viable_from_420 f _ Ht Hm) as [_ Hq]. now apply Hq.
Qed.

Lemma stainless_steel_seal_leaves_out_the_cooler_bodies_witness :
  sealSurfaceMaterial
    (request "on_off" "stainless_steel" "stainless_steel_seal" 420 10 "" "")
  = "stainless_steel_seal"
  /\ suitable (Script.evaluate
                (request "on_off" "stainless_steel" "stainless_steel_seal" 420 10 "" ""))
     = true
  /\ temperature
       (request "on_off" "stainless_steel" "stainless_steel_seal" 420 10 "" "")
     == 420.
Proof.
  split; [reflexivity |]. split; [reflexivity |].
  exact (proj1 (proj2 (stainless_steel_seal_leaves_out_the_cooler_bodies
                         (request "on_off" "stainless_steel"
                                  "stainless_steel_seal" 420 10 "" "")
                         eq_refl))
           eq_refl eq_refl).
Defined.

(** The snapshot's verdict on a material implies the one of [script.js]. *)
Lemma snapshot_verdict_implies_script f st st' :
  fst (Snapshot.material_switch f st) = true ->
  fst (Script.material_switch f st') = true.
Proof.
  unfold Snapshot.material_switch, Script.material_switch.
  same_material;
  rewrite ?brass_verdict, ?bronze_verdict;
  unfold case_cast_iron, case_ductile_iron, case_carbon_steel,
    case_stainless_steel, Script.case_stainless_steel_310,
    case_duplex_super_duplex, case_plastic;
  atoms; by_ranges.
Qed.

(** X12.  The synchronous handler of the snapshot is the stricter of the
    two: every request it finds suitable is suitable for the handler of
    [script.js]; and on the eight materials whose branches they share the
    two handlers give the same verdict. *)
Theorem snapshot_is_stricter_than_script (f : form) :
  (suitable (Snapshot.evaluate f) = true -> suitable (Script.evaluate f) = true)
  /\ (In (bodyBonnetMaterial f)
         ["cast_iron"; "ductile_iron"; "carbon_steel"; "stainless_steel"; "brass";
          "bronze"; "duplex_super_duplex"; "plastic"] ->
      suitable (Snapshot.evaluate f) = suitable (Script.evaluate f)).
Proof.
  rewrite script_suitable, snapshot_suitable.
  unfold Script.materialViable, Snapshot.materialViable,
    Script.sealViable, Snapshot.sealViable.
  rewrite (seal_verdict_any_state f
             (Snapshot.material_step f (Snapshot.function_step f initial))
             (Script.material_step f (Script.function_step f initial))).
  split.
  - intros H. apply andb_true_iff in H. destruct H as [H Hs].
    apply andb_true_iff in H. destruct H as [Hf Hm].
    rewrite Hf, Hs.
    now rewrite (snapshot_verdict_implies_script f _
                   (Script.function_step f initial) Hm).
  - intros Hin.
    rewrite (snapshot_switch_agrees f _ Hin).
    now rewrite (script_verdict_any_state f
                   (Snapshot.function_step f initial)
                   (Script.function_step f initial)).
Qed.

(** ** More on the pressure/temperature checks *)

(** Unfolds the thresholds of the checks. *)
Ltac thresholds :=
  unfold Advisor.HIGH_TEMP_THRESHOLD, Advisor.LOW_PRESSURE_THRESHOLD,
    Advisor.VERY_LOW_TEMP_THRESHOLD, Advisor.HIGH_PRESSURE_THRESHOLD,
    Advisor.EXTREME_HIGH_TEMP_THRESHOLD, Advisor.EXTREME_HIGH_PRESSURE_THRESHOLD,
    Advisor.EXTREME_LOW_TEMP_THRESHOLD, Advisor.VACUUM_PRESSURE_THRESHOLD in *.

(** The warning the table gives, by region of the plane. *)
Lemma first_match_regions (t p : Q) :
  (Advisor.first_match t p = Some Advisor.warning_1 <-> 100 < t /\ p < 1)
  /\ (Advisor.first_match t p = Some Advisor.warning_2 <-> t < 0 /\ 50 < p)
  /\ (Advisor.first_match t p = Some Advisor.warning_3 <-> 200 < p /\ 400 < t)
  /\ (Advisor.first_match t p = Some Advisor.warning_4
      <-> p < Advisor.VACUUM_PRESSURE_THRESHOLD /\ t < -50)
  /\ (Advisor.first_match t p = None
      <-> ~ (100 < t /\ p < 1) /\ ~ (t < 0 /\ 50 < p) /\ ~ (200 < p /\ 400 < t)
          /\ ~ (p < Advisor.VACUUM_PRESSURE_THRESHOLD /\ t < -50)).
Proof.
  unfold Advisor.first_match, Advisor.checks.
  cbn [find fst snd option_map]. thresholds.
  atoms; cbn [andb option_map snd]; cbv iota;
    to_Q; repeat split; intros;
    repeat match goal with
    | H : _ /\ _ |- _ => destruct H
    | H : Some _ = Some _ |- _ => first [discriminate H | clear H]
    | H : Some _ = None |- _ => discriminate H
    | H : None = Some _ |- _ => discriminate H
    | |- ~ _ => intros [? ?]
    end; try reflexivity; try lra.
Qed.

(** X13.  The checks find nothing to say, and change nothing, whenever the
    temperature is between 0 and 100 degrees, whatever the pressure, and
    whenever the pressure is between 1 and 50 bar, whatever the
    temperature. *)
Theorem envelope_is_silent_in_the_ordinary_ranges (t p : Q) (st : state) :
  (0 <= t /\ t <= 100) \/ (1 <= p /\ p <= 50) ->
  Advisor.envelope t p st = st.
Proof.
  intros H. rewrite envelope_follows_table.
  destruct (first_match_regions t p) as [_ [_ [_ [_ Hnone]]]].
  assert (Hn : Advisor.first_match t p = None).
  { apply Hnone. thresholds. repeat split; intros [? ?]; lra. }
  now rewrite Hn.
Qed.

Lemma envelope_is_silent_in_the_ordinary_ranges_witness :
  ((0 <= 80 /\ 80 <= 100) \/ (1 <= 300 /\ 300 <= 50))
  /\ Advisor.envelope 80 300 initial = initial.
Proof.
  assert (H : (0 <= 80 /\ 80 <= 100) \/ (1 <= 300 /\ 300 <= 50))
    by (left; split; discriminate).
  split; [exact H |].
  exact (envelope_is_silent_in_the_ordinary_ranges 80 300 initial H).
Defined.

(** X14.  On the fresh set the checks leave the first warning exactly for
    more than 100 degrees under 1 bar, the second for less than 0 degrees
    over 50 bar, the third for more than 200 bar over 400 degrees, the
    fourth for less than 0.1 bar under -50 degrees: four regions that do not
    meet, so that the order of these checks decides nothing.  The fifth and
    the sixth warning are never recommended: the second and the first check
    take every input of theirs. *)
Theorem envelope_regions (t p : Q) :
  (recommendations (Advisor.envelope t p initial) = [Advisor.warning_1]
   <-> 100 < t /\ p < 1)
  /\ (recommendations (Advisor.envelope t p initial) = [Advisor.warning_2]
      <-> t < 0 /\ 50 < p)
  /\ (recommendations (Advisor.envelope t p initial) = [Advisor.warning_3]
      <-> 200 < p /\ 400 < t)
  /\ (recommendations (Advisor.envelope t p initial) = [Advisor.warning_4]
      <-> p < Advisor.VACUUM_PRESSURE_THRESHOLD /\ t < -50)
  /\ ~ In Advisor.warning_5 (recommendations (Advisor.envelope t p initial))
  /\ ~ In Advisor.warning_6 (recommendations (Advisor.envelope t p initial)).
Proof.
  destruct (first_match_regions t p) as [R1 [R2 [R3 [R4 _]]]].
  destruct (checks_5_and_6_are_shadowed t p) as [N5 N6].
  assert (Hr : recommendations (Advisor.envelope t p initial)
               = match Advisor.first_match t p with
                 | Some w => [w] | None => [] end).
  { rewrite envelope_follows_table.
    destruct (Advisor.first_match t p); reflexivity. }
  rewrite Hr.
  assert (Hone : forall w, match Advisor.first_match t p with
                           | Some w' => [w'] | None => [] end = [w]
                           <-> Advisor.first_match t p = Some w).
  { intros w. destruct (Advisor.first_match t p) as [w' |]; split; intros H;
      try discriminate H; [injection H as H; now subst | injection H as H; now subst]. }
  rewrite !Hone.
  split; [exact R1 |]. split; [exact R2 |]. split; [exact R3 |].
  split; [exact R4 |]. clear R1 R2 R3 R4 Hr Hone.
  destruct (Advisor.first_match t p) as [w |]; split; intros Hin;
    try (destruct Hin as [Hin | []]; congruence); destruct Hin.
Qed.

(** ** The page of the asynchronous handler *)

Lemma recommend_all_extends (xs : list string) (st : state) :
  extends st (recommend_all xs st).
Proof.
  unfold recommend_all. revert st.
  induction xs as [| x xs IH]; intros st; simpl; [apply extends_refl |].
  eapply extends_trans; [apply extends_recommend | apply IH].
Qed.

Lemma recommend_all_In (xs : list string) (st : state) (x : string) :
  In x xs -> In x (recommendations (recommend_all xs st)).
Proof.
  unfold recommend_all. revert st.
  induction xs as [| y xs IH]; intros st Hin; [destruct Hin |].
  cbn [fold_left]. destruct Hin as [E | Hin].
  - subst y. eapply extends_In; [apply (recommend_all_extends xs) |].
    cbn [recommendations recommend]. exact (add_In _ _).
  - now apply IH.
Qed.

(** X15.  The asynchronous handler lists something exactly when the backend
    answered with at least one recommendation and did not set [suitable] to
    false.  Then the list is the warning of the pressure/temperature
    checks, if they gave one, followed by the recommendations of the
    backend, each once.  In every other case (the request failed, the answer
    held no recommendation, the backend said no) the list is empty and the
    no-results message is shown: the warning of the checks is lost. *)
Theorem advisor_page (t p : Q) (x : Advisor.exchange) :
  (forall r rs, x = Advisor.Data (r :: rs) false ->
     Advisor.submit t p x
     = {| valveList := recommendations
                         (recommend_all (r :: rs) (Advisor.envelope t p initial));
          noResultsMessage := false |}
     /\ incl (r :: rs) (valveList (Advisor.submit t p x))
     /\ NoDup (valveList (Advisor.submit t p x))
     /\ (forall w, Advisor.first_match t p = Some w ->
           exists rest, valveList (Advisor.submit t p x) = w :: rest))
  /\ ((forall r rs, x <> Advisor.Data (r :: rs) false) ->
      Advisor.submit t p x = {| valveList := []; noResultsMessage := true |}).
Proof.
  split.
  - intros r rs E. subst x.
    set (st := Advisor.envelope t p initial).
    assert (Hin : forall y, In y (r :: rs) ->
                    In y (recommendations (recommend_all (r :: rs) st)))
      by (intros y; apply recommend_all_In).
    assert (Hs : Advisor.submit t p (Advisor.Data (r :: rs) false)
                 = {| valveList := recommendations (recommend_all (r :: rs) st);
                      noResultsMessage := false |}).
    { unfold Advisor.submit, Advisor.evaluate, Advisor.display.
      fold st. cbn [Advisor.backend_step suitable recommendations negb andb].
      destruct (recommendations (recommend_all (r :: rs) st)) as [| y l] eqn:El;
        [| reflexivity].
      destruct (Hin r (or_introl eq_refl)). }
    rewrite Hs. cbn [valveList]. split; [reflexivity |]. split; [exact Hin |].
    split.
    + assert (Hg : grows (r :: rs) st (recommend_all (r :: rs) st))
        by (apply grows_recommend_all, incl_refl).
      apply Hg. unfold st. rewrite envelope_follows_table.
      destruct (Advisor.first_match t p) as [w |];
        cbn [recommendations unsuitable recommend initial];
        [apply add_NoDup |]; constructor.
    + intros w Hw.
      destruct (recommend_all_extends (r :: rs) st) as [rest Hrest].
      exists rest. rewrite Hrest. unfold st.
      rewrite envelope_follows_table, Hw. reflexivity.
  - intros Hx. destruct x as [| [| r rs] [|]]; try reflexivity.
    exfalso. now apply (Hx r rs).
Qed.

(** ** The colour of the model *)

(** X16.  [getMaterialColor] gives every material of the catalog a colour
    other than the default grey, which it keeps for the values outside the
    catalog; and two values with the same colour, one of them in the
    catalog, are the same material or the two stainless steels. *)
Theorem material_colours (a b : string) :
  (In a material_catalog <-> getMaterialColor a <> 0xaaaaaa%N)
  /\ (In a material_catalog ->
      getMaterialColor a = getMaterialColor b ->
      a = b
      \/ (In a ["stainless_steel"; "stainless_steel_310"]
          /\ In b ["stainless_steel"; "stainless_steel_310"])).
Proof.
  unfold getMaterialColor, material_catalog.
  repeat match goal with
  | |- context [String.eqb ?x ?y] =>
      destruct (String.eqb_spec x y); cbn [orb]; cbv iota
  end;
  cbn [In]; (split; [split |]); intros;
  try solve [intuition congruence];
  try solve [exfalso; intuition congruence];
  try solve [left; congruence];
  try solve [right; split; intuition congruence].
Qed.

(** ** Rounding from below, and the size test on numerals *)

Lemma round_half_even_ge (q : Q) (n : Z) :
  inject_Z n <= q -> (n <= JS.round_half_even q)%Z.
Proof.
  intros Hq. unfold JS.round_half_even.
  assert (Hf : (n <= Qfloor q)%Z).
  { rewrite <- (Qfloor_Z n). now apply Qfloor_resp_le. }
  destruct (Qcompare (q - inject_Z (Qfloor q)) (1 # 2));
    [destruct (Z.even (Qfloor q)) | |]; lia.
Qed.

(** When it is not negative, [floor_log2 x] is an exponent of a power of
    two below [x]. *)
Lemma floor_log2_lower (x : Q) :
  0 < x -> (0 <= JS.floor_log2 x)%Z -> inject_Z (2 ^ JS.floor_log2 x) <= x.
Proof.
  intros Hpos. unfold JS.floor_log2.
  assert (Hn : (0 < Qnum x)%Z).
  { unfold Qlt in Hpos. simpl in Hpos. lia. }
  pose proof (Z.log2_spec (Qnum x) Hn) as [Ha _].
  pose proof (Z.log2_spec (Z.pos (Qden x)) (Pos2Z.is_pos _)) as [_ Hb].
  pose proof (Z.log2_nonneg (Qnum x)) as Ha0.
  pose proof (Z.log2_nonneg (Z.pos (Qden x))) as Hb0.
  set (a := Z.log2 (Qnum x)) in *. set (b := Z.log2 (Z.pos (Qden x))) in *.
  destruct (JS.Qltb x (JS.pow2 (a - b))) eqn:Ht; intros Hk.
  - unfold Qle. simpl. rewrite Z.mul_1_r.
    apply Z.le_trans with (2 ^ (a - b - 1) * 2 ^ Z.succ b)%Z.
    + apply Z.mul_le_mono_nonneg_l; [apply Z.pow_nonneg; lia | lia].
    + rewrite <- Z.pow_add_r by lia.
      replace (a - b - 1 + Z.succ b)%Z with a by lia. exact Ha.
  - apply Qltb_false in Ht. unfold JS.pow2 in Ht.
    destruct (0 <=? a - b)%Z eqn:H0; [exact Ht |].
    apply Z.leb_gt in H0. lia.
Qed.

(** For an exponent that is not positive, [pow2 e] is the inverse of the
    power of two of the opposite exponent. *)
Lemma pow2_nonpos (e : Z) :
  (e <= 0)%Z -> inject_Z (2 ^ (- e)) * JS.pow2 e == 1.
Proof.
  intros He. unfold JS.pow2. destruct (0 <=? e)%Z eqn:H0.
  - apply Z.leb_le in H0. assert (e = 0%Z) by lia. subst e. reflexivity.
  - apply Qmult_inv_r. change 0 with (inject_Z 0). rewrite inject_Z_injective.
    assert (0 < 2 ^ (- e))%Z by (apply Z.pow_pos_nonneg; lia). lia.
Qed.

(** Rounding a rational that is at least 101 gives a number above 100,
    finite or not. *)
Lemma round_binary64_ge_101 (v : Q) :
  101 <= v -> JS.gt (JS.round_binary64 v) (JS.Finite 100) = true.
Proof.
  intros Hv. assert (Hpos : 0 < v) by lra.
  unfold JS.round_binary64. rewrite (proj1 (Qgt_alt v 0) Hpos).
  unfold JS.round_binary64_pos.
  set (e := Z.max (JS.floor_log2 v - 52) (-1074)).
  pose proof (pow2_pos e) as Hp.
  assert (Hy : 101 <= inject_Z (JS.round_half_even (v / JS.pow2 e)) * JS.pow2 e).
  { destruct (Z.le_gt_cases e 0) as [He | He].
    - pose proof (pow2_nonpos e He) as Hm.
      set (M := (2 ^ (- e))%Z) in *.
      assert (Hq : inject_Z (101 * M) <= v / JS.pow2 e).
      { apply Qle_shift_div_l; [exact Hp |].
        rewrite inject_Z_mult, <- Qmult_assoc, Hm, Qmult_1_r. exact Hv. }
      apply round_half_even_ge in Hq. rewrite Zle_Qle in Hq.
      apply Qle_trans with (inject_Z (101 * M) * JS.pow2 e).
      + rewrite inject_Z_mult, <- Qmult_assoc, Hm, Qmult_1_r. apply Qle_refl.
      + apply Qmult_le_compat_r; [exact Hq | now apply Qlt_le_weak].
    - assert (Hk : e = (JS.floor_log2 v - 52)%Z) by (unfold e in *; lia).
      assert (Hk0 : (0 <= JS.floor_log2 v)%Z) by lia.
      pose proof (floor_log2_lower v Hpos Hk0) as Hlow.
      assert (Hpe : JS.pow2 e = inject_Z (2 ^ e)).
      { unfold JS.pow2. destruct (0 <=? e)%Z eqn:H0; [reflexivity |].
        apply Z.leb_gt in H0. lia. }
      assert (H2e : (2 <= 2 ^ e)%Z).
      { change 2%Z with (2 ^ 1)%Z at 1. apply Z.pow_le_mono_r; lia. }
      assert (Hq : inject_Z (2 ^ 52) <= v / JS.pow2 e).
      { apply Qle_shift_div_l; [exact Hp |].
        rewrite Hpe, <- inject_Z_mult, <- Z.pow_add_r by lia.
        replace (52 + e)%Z with (JS.floor_log2 v) by lia. exact Hlow. }
      apply round_half_even_ge in Hq. rewrite Zle_Qle in Hq.
      rewrite Hpe in *.
      apply Qle_trans with (inject_Z (2 ^ 52) * inject_Z (2 ^ e)).
      + rewrite <- inject_Z_mult. change 101 with (inject_Z 101).
        rewrite <- Zle_Qle.
        assert (0 < 2 ^ 52)%Z by reflexivity.
        assert (101 <= 2 ^ 52)%Z by (intros H'; discriminate H').
        nia.
      + apply Qmult_le_compat_r; [exact Hq | now apply Qlt_le_weak]. }
  destruct (JS.Qleb (JS.pow2 1024) _); [reflexivity |].
  simpl. apply Qgtb_true. lra.
Qed.

Lemma span_all_digits (s : string) :
  all_digits s = true -> JS.span_digits s = (list_ascii_of_string s, "").
Proof.
  induction s as [| c s IH]; [reflexivity |].
  cbn [all_digits JS.span_digits list_ascii_of_string]. intros H.
  apply andb_true_iff in H. destruct H as [Hc Hs].
  now rewrite Hc, (IH Hs).
Qed.

Lemma replace_all_digits (s : string) :
  all_digits s = true -> JS.replace_non_digit_dot s = s.
Proof.
  induction s as [| c s IH]; [reflexivity |].
  cbn [all_digits JS.replace_non_digit_dot]. intros H.
  apply andb_true_iff in H. destruct H as [Hc Hs].
  now rewrite Hc, (IH Hs).
Qed.

Lemma includes_dn100_not_all_digits (s : string) :
  JS.includes s "dn100" = true -> all_digits s = false.
Proof.
  induction s as [| c s IH]; cbn [JS.includes all_digits prefix];
    [discriminate |].
  intros H. apply orb_true_iff in H. destruct H as [H | H].
  - destruct (ascii_dec "d" c) as [E | _]; [| discriminate H].
    subst c. reflexivity.
  - rewrite (IH H). apply andb_false_r.
Qed.

(** A numeral is read as the number its digits write. *)
Lemma decimal_all_digits (s : string) :
  all_digits s = true -> s <> "" ->
  exists v, JS.decimal s = Some v
            /\ v == inject_Z (JS.digits_value (list_ascii_of_string s)).
Proof.
  intros Ha Hne. unfold JS.decimal. rewrite (span_all_digits s Ha).
  destruct s as [| c s]; [congruence |].
  cbn [list_ascii_of_string]. eexists. split; [reflexivity |].
  rewrite app_nil_r. cbn [List.length Z.of_nat Z.opp JS.exponent_part].
  change (JS.pow10 0) with (inject_Z 1). change (inject_Z 1) with 1.
  now rewrite !Qmult_1_r.
Qed.

(** The size test holds when the literal left by the replacement is at
    least 101. *)
Lemma over_dn100_from_101 (f : form) (v : Q) :
  String.eqb (nominalDiameter f) "" = false ->
  JS.decimal (JS.replace_non_digit_dot (nominalDiameter f)) = Some v ->
  101 <= v ->
  over_dn100 f = true.
Proof.
  intros Hne Hd Hv. unfold over_dn100. rewrite Hne.
  destruct (parseFloat_replace (nominalDiameter f)) as [Hp _].
  rewrite Hp, Hd, (round_binary64_ge_101 v Hv). apply orb_true_r.
Qed.

(** X17.  The size test of the brass branch on numerals.  A token made of
    digits only passes the test exactly when the number it writes is above
    100; and any token, once everything but its digits and dots is deleted,
    passes it when what is left starts with a decimal literal of at least
    101 (so "dn150" passes, and so does "dn 50 pn 16", read as 5016). *)
Theorem size_test_on_numerals (f : form) :
  (all_digits (nominalDiameter f) = true ->
   nominalDiameter f <> "" ->
   (over_dn100 f = true
    <-> (100 < JS.digits_value (list_ascii_of_string (nominalDiameter f)))%Z))
  /\ (forall v,
        nominalDiameter f <> "" ->
        JS.decimal (JS.replace_non_digit_dot (nominalDiameter f)) = Some v ->
        101 <= v ->
        over_dn100 f = true).
Proof.
  split.
  - intros Ha Hne.
    destruct (decimal_all_digits _ Ha Hne) as [v [Hd Hv]].
    pose proof (replace_all_digits _ Ha) as Hr.
    split.
    + intros Ho. destruct (over_dn100_only_if f Ho) as [Hi | [w [Hl Hw]]].
      * apply includes_dn100_not_all_digits in Hi. congruence.
      * destruct (parseFloat_replace (nominalDiameter f)) as [_ Hs].
        rewrite Hs, Hr, Hd in Hl. injection Hl as Hl. subst w.
        rewrite Hv in Hw. change 100 with (inject_Z 100) in Hw.
        now rewrite <- Zlt_Qlt in Hw.
    + intros Hn. apply (over_dn100_from_101 f v).
      * now apply String.eqb_neq.
      * now rewrite Hr.
      * rewrite Hv. change 101 with (inject_Z 101). rewrite <- Zle_Qle. lia.
  - intros v Hne Hd Hv. apply (over_dn100_from_101 f v); try assumption.
    now apply String.eqb_neq.
Qed.

Lemma size_test_on_numerals_witness :
  all_digits (nominalDiameter (brass_of_diameter "150")) = true
  /\ nominalDiameter (brass_of_diameter "150") <> ""
  /\ over_dn100 (brass_of_diameter "150") = true.
Proof.
  assert (Ha : all_digits (nominalDiameter (brass_of_diameter "150")) = true)
    by reflexivity.
  assert (Hn : nominalDiameter (brass_of_diameter "150") <> "") by discriminate.
  split; [exact Ha |]. split; [exact Hn |].
  apply (proj1 (size_test_on_numerals (brass_of_diameter "150")) Ha Hn).
  reflexivity.
Defined.

(** ** A request that passes *)

(** X18.  A request with a primary function, no seal, and a body in ductile
    iron, carbon steel, stainless steel 304-316 or plastic inside its range
    ends suitable in both synchronous handlers, and the page lists the
    families of the function and nothing else. *)
Theorem in_range_request_lists_the_families (f : form) :
  function_selected f = true ->
  sealSurfaceMaterial f = "" ->
  In (bodyBonnetMaterial f) ["ductile_iron"; "carbon_steel"; "stainless_steel"; "plastic"] ->
  fst (Script.material_switch f initial) = true ->
  Script.submit f
  = {| valveList := Script.families (mainFunction f); noResultsMessage := false |}
  /\ Snapshot.submit f
     = {| valveList := Snapshot.families (mainFunction f); noResultsMessage := false |}.
Proof.
  intros Hf Hs Hm Hv.
  assert (Hsw : forall st, Script.material_switch f st = (true, st)).
  { intros st. apply injective_projections.
    - cbn [fst]. now rewrite (script_verdict_any_state f st initial).
    - cbn [snd]. simpl in Hm.
      destruct Hm as [E | [E | [E | [E | []]]]]; symmetry in E.
      + apply (ductile_iron_range f st E).
      + apply (carbon_steel_range f st E).
      + apply (stainless_steel_range f st E).
      + apply (plastic_range f st E). }
  assert (Hsn : forall st, Snapshot.material_switch f st = (true, st)).
  { intros st. rewrite <- (Hsw st). apply snapshot_switch_agrees.
    simpl in Hm. simpl. tauto. }
  assert (Hne : String.eqb (bodyBonnetMaterial f) "" = false).
  { apply String.eqb_neq. simpl in Hm. intros E. rewrite E in Hm.
    intuition discriminate. }
  destruct (script_function_step_families f Hf) as [Hfam1 Hlen1].
  destruct (snapshot_function_step_families f Hf) as [Hfam2 Hlen2].
  pose proof (script_function_step_suitable f) as Hs1.
  pose proof (snapshot_function_step_suitable f) as Hs2.
  rewrite Hf in Hs1, Hs2.
  split.
  - unfold Script.submit, Script.evaluate, seal_step, Script.material_step.
    rewrite Hs, Hsw. cbn [String.eqb negb]. unfold Script.display.
    rewrite Hfam1, Hs1.
    destruct (Script.families (mainFunction f)) as [| x l];
      [simpl in Hlen1; lia | reflexivity].
  - unfold Snapshot.submit, Snapshot.evaluate, seal_step, Snapshot.material_step.
    rewrite Hs, Hsn. cbn [String.eqb negb andb]. unfold Snapshot.display.
    rewrite Hfam2, Hs2.
    destruct (Snapshot.families (mainFunction f)) as [| x l];
      [simpl in Hlen2; lia | reflexivity].
Qed.

Lemma in_range_request_lists_the_families_witness :
  function_selected (request "on_off" "carbon_steel" "" 200 40 "" "") = true
  /\ Script.submit (request "on_off" "carbon_steel" "" 200 40 "" "")
     = {| valveList := Script.on_off_families; noResultsMessage := false |}.
Proof.
  split; [reflexivity |].
  refine (proj1 (in_range_request_lists_the_families
                   (request "on_off" "carbon_steel" "" 200 40 "" "")
                   eq_refl eq_refl _ eq_refl)).
  right. left. reflexivity.
Defined.
